(** * eit-cache: a cache-aside layer over a TTL store

    A shallow embedding of the Go package [eitcache]: the in-process TTL
    backend ([adapter.go]), the cache-aside executor ([manager.go]), the
    monitor ([monitor.go]) and the pagination codec ([pagination.go]),
    followed by the properties the specification states about them.

    Conventions of the embedding.
    - A Go [string] and a Go [[]byte] are both [string] (a sequence of
      bytes); a nil slice returned by a lookup is [None].
    - A Go [error] is its message; the nil error is [None].
    - [time.Time] is the number of nanoseconds since the zero instant of
      Go's [time.Time{}], so that [IsZero] is a comparison with 0; a
      [time.Duration] is a number of nanoseconds.  Every call of
      [time.Now()] is an input of the function that makes it.
    - [int64] arithmetic wraps ([wrap64]); an [int] has 64 bits.
    - [encoding/json], [crypto/sha256] and the caller's producer are not part
      of the package: they are parameters ([JSON], [sha256_Sum256], a state
      transformer).
    - A Go map is a [gmap]; where the code ranges over a map, the order of
      the iteration is an argument, constrained to enumerate the keys. *)

From Stdlib Require Import ZArith Lia Ascii.
From stdpp Require Import gmap strings list sorting pretty.

Local Open Scope Z_scope.

(** ** Go base types *)

Definition bytes := string.
Definition error := string.

Definition Time := Z.
Definition Duration := Z.

Definition zeroTime : Time := 0.
Definition IsZero (t : Time) : bool := t =? 0.
Definition After (t u : Time) : bool := u <? t.
Definition Add (t : Time) (d : Duration) : Time := t + d.
Definition Since (now start : Time) : Duration := now - start.

Definition wrap64 (z : Z) : Z := (z + 2 ^ 63) mod 2 ^ 64 - 2 ^ 63.

Definition int64_range (z : Z) : Prop := - 2 ^ 63 <= z < 2 ^ 63.

(** [encoding/json] for a Go type [T]: [json.Marshal] yields a payload or an
    error, [json.Unmarshal] into a fresh variable yields a value or an
    error. *)
Class JSON (T : Type) := {
  json_Marshal : T -> bytes + error;
  json_Unmarshal : bytes -> T + error
}.

(** [payload, _ := json.Marshal(v)]: the payload is nil when encoding fails. *)
Definition marshal_or_nil {T} {codec : JSON T} (v : T) : bytes :=
  match json_Marshal v with inl p => p | inr _ => "" end.

(** ** strings *)

Definition HasPrefix (s prefix : string) : bool := String.prefix prefix s.

Definition HasSuffix (s suffix : string) : bool :=
  (String.length suffix <=? String.length s)%nat &&
  String.eqb
    (String.substring (String.length s - String.length suffix)
       (String.length suffix) s)
    suffix.

Definition TrimSuffix (s suffix : string) : string :=
  if HasSuffix s suffix
  then String.substring 0 (String.length s - String.length suffix) s
  else s.

Fixpoint Join (elems : list string) (sep : string) : string :=
  match elems with
  | [] => ""
  | [e] => e
  | e :: rest => e +:+ sep +:+ Join rest sep
  end.

(** ** adapter.go: the in-process backend *)

Record memoryEntry := { data : bytes; expireAt : Time }.

Record MemoryCacheAdapter := {
  cache : gmap string memoryEntry;
  defaultTTL : Duration
}.

Definition with_cache (m : MemoryCacheAdapter) (c : gmap string memoryEntry)
  : MemoryCacheAdapter :=
  {| cache := c; defaultTTL := defaultTTL m |}.

Definition NewMemoryCacheAdapter (ttl : Duration) : MemoryCacheAdapter :=
  {| cache := ∅; defaultTTL := ttl |}.

(** [!entry.expireAt.IsZero() && time.Now().After(entry.expireAt)] *)
Definition expired (entry : memoryEntry) (now : Time) : bool :=
  negb (IsZero (expireAt entry)) && After now (expireAt entry).

Section MemorySetGet.
Context {V : Type} {codec : JSON V}.

Definition MemSet (m : MemoryCacheAdapter) (now : Time) (key : string)
    (value : V) (ttl : Duration) : option error * MemoryCacheAdapter :=
  match json_Marshal value with
  | inr err => (Some ("marshal value failed: " +:+ err), m)
  | inl payload =>
      let ttl := if ttl =? 0 then defaultTTL m else ttl in
      let expireAt := if 0 <? ttl then Add now ttl else zeroTime in
      (None,
       with_cache m (<[key := {| data := payload; expireAt := expireAt |}]>
                       (cache m)))
  end.
End MemorySetGet.

(** [Get] has two critical sections: the lookup under the read lock, and the
    removal under the write lock once the entry read was found expired. *)
Definition Get_read (m : MemoryCacheAdapter) (key : string)
  : option memoryEntry := cache m !! key.

Definition Get_remove (m : MemoryCacheAdapter) (key : string)
  : MemoryCacheAdapter := with_cache m (delete key (cache m)).

Definition MemGet (m : MemoryCacheAdapter) (now : Time) (key : string)
  : option bytes * option error * MemoryCacheAdapter :=
  match Get_read m key with
  | None => (None, None, m)
  | Some entry =>
      if expired entry now
      then (None, None, Get_remove m key)
      else (Some (data entry), None, m)
  end.

Fixpoint MemDelete (m : MemoryCacheAdapter) (keys : list string)
  : option error * MemoryCacheAdapter :=
  match keys with
  | [] => (None, m)
  | k :: rest => MemDelete (with_cache m (delete k (cache m))) rest
  end.

Definition MemExists (m : MemoryCacheAdapter) (now : Time) (key : string)
  : bool * option error :=
  match cache m !! key with
  | None => (false, None)
  | Some entry => if expired entry now then (false, None) else (true, None)
  end.

(** The loop of [DeletePattern]: [order] is the order in which [range]
    yields the keys of the map. *)
Definition DeletePattern_loop (prefix : string) (order : list string)
    (c : gmap string memoryEntry) : gmap string memoryEntry * Z :=
  foldl (fun st k =>
           if HasPrefix k prefix
           then (delete k st.1, wrap64 (st.2 + 1))
           else st)
        (c, 0) order.

Definition MemDeletePattern (m : MemoryCacheAdapter) (order : list string)
    (pattern : string) : Z * option error * MemoryCacheAdapter :=
  if String.eqb pattern "" then (0, None, m)
  else
    let prefix := TrimSuffix pattern "*" in
    let r := DeletePattern_loop prefix order (cache m) in
    (r.2, None, with_cache m r.1).

(** An order in which [range] may enumerate a map: each key once. *)
Definition range_order {X} (c : gmap string X) (order : list string) : Prop :=
  order ≡ₚ (map_to_list c).*1.

Section MemoryCounters.
Context {int64_json : JSON Z}.

(** [var current int64; _ = json.Unmarshal(payload, &current)]: a payload
    that does not decode leaves [current] at zero. *)
Definition decoded (payload : bytes) : Z :=
  match json_Unmarshal payload with inl n => n | inr _ => 0 end.

Definition addDelta (m : MemoryCacheAdapter) (now : Time) (key : string)
    (delta : Z) : Z * option error * MemoryCacheAdapter :=
  let found := cache m !! key in
  let stale :=
    match found with Some entry => expired entry now | None => false end in
  let c := if stale then delete key (cache m) else cache m in
  let live := if stale then None else found in
  let current :=
    match live with
    | Some entry => decoded (data entry)
    | None => 0
    end in
  let current := wrap64 (current + delta) in
  match json_Marshal current with
  | inr err => (0, Some err, with_cache m c)
  | inl payload =>
      let expireAt :=
        match live with Some entry => expireAt entry | None => zeroTime end in
      (current, None,
       with_cache m (<[key := {| data := payload; expireAt := expireAt |}]> c))
  end.

Definition MemIncr (m : MemoryCacheAdapter) (now : Time) (key : string) :=
  addDelta m now key 1.

Definition MemDecr (m : MemoryCacheAdapter) (now : Time) (key : string) :=
  addDelta m now key (-1).
End MemoryCounters.

(** The [Adapter] interface, for a backend whose state is [A].  [now] is the
    reading of the clock the backend makes during the call, [order] the
    order in which it enumerates its keys. *)
Class Adapter (A : Type) := {
  adapter_Get : A -> Time -> string -> option bytes * option error * A;
  adapter_Set : forall {V : Type} {codec : JSON V},
      A -> Time -> string -> V -> Duration -> option error * A;
  adapter_DeletePattern :
      A -> list string -> string -> Z * option error * A
}.

#[export] Instance MemoryCacheAdapter_Adapter : Adapter MemoryCacheAdapter := {
  adapter_Get := MemGet;
  adapter_Set := fun V _ => MemSet;
  adapter_DeletePattern := MemDeletePattern
}.

(** ** monitor.go *)

Record CacheMetrics := {
  HitCount : Z;
  MissCount : Z;
  EvictionCount : Z;
  LastUpdate : Time;
  AvgResponseTime : Duration
}.

Record Monitor := {
  metrics : CacheMetrics;
  tracker : list Duration;
  maxTrack : Z
}.

Definition NewMonitor (now : Time) : Monitor :=
  {| metrics := {| HitCount := 0; MissCount := 0; EvictionCount := 0;
                   LastUpdate := now; AvgResponseTime := 0 |};
     tracker := [];
     maxTrack := 1000 |}.

Definition track (m : Monitor) (now : Time) (duration : Duration) : Monitor :=
  let tr := tracker m ++ [duration] in
  let tr := if maxTrack m <? Z.of_nat (length tr) then drop 1 tr else tr in
  let total := foldl (fun acc d => wrap64 (acc + d)) 0 tr in
  let avg :=
    if (0 <? length tr)%nat
    then wrap64 (Z.quot total (Z.of_nat (length tr)))
    else AvgResponseTime (metrics m) in
  {| metrics := {| HitCount := HitCount (metrics m);
                   MissCount := MissCount (metrics m);
                   EvictionCount := EvictionCount (metrics m);
                   LastUpdate := now;
                   AvgResponseTime := avg |};
     tracker := tr;
     maxTrack := maxTrack m |}.

Definition bump_hit (c : CacheMetrics) : CacheMetrics :=
  {| HitCount := wrap64 (HitCount c + 1); MissCount := MissCount c;
     EvictionCount := EvictionCount c; LastUpdate := LastUpdate c;
     AvgResponseTime := AvgResponseTime c |}.

Definition bump_miss (c : CacheMetrics) : CacheMetrics :=
  {| HitCount := HitCount c; MissCount := wrap64 (MissCount c + 1);
     EvictionCount := EvictionCount c; LastUpdate := LastUpdate c;
     AvgResponseTime := AvgResponseTime c |}.

Definition RecordHit (m : Monitor) (now : Time) (duration : Duration)
  : Monitor :=
  track {| metrics := bump_hit (metrics m); tracker := tracker m;
           maxTrack := maxTrack m |} now duration.

Definition RecordMiss (m : Monitor) (now : Time) (duration : Duration)
  : Monitor :=
  track {| metrics := bump_miss (metrics m); tracker := tracker m;
           maxTrack := maxTrack m |} now duration.

(** ** The ticket and the package's errors *)

Definition ErrManagerNil : error := "cache manager is nil".
Definition ErrInvalidType : error := "invalid cache type".
Definition ErrInvalidTicket : error := "invalid ticket".
Definition ErrTicketExpired : error := "ticket expired".

Record CacheTicket := {
  UserID : string;
  Token : string;
  IssuedAt : Time;
  ExpiresAt : Time
}.

Definition Validate (t : option CacheTicket) (now : Time) : option error :=
  match t with
  | None => Some ErrInvalidTicket
  | Some t =>
      if String.eqb (Token t) "" then Some ErrInvalidTicket
      else if After now (ExpiresAt t) then Some ErrTicketExpired
      else None
  end.

(** ** manager.go *)

Record Manager (A : Type) := {
  manager_adapter : option A;
  manager_defaultTTL : Duration;
  manager_monitor : option Monitor
}.
Arguments manager_adapter {A} _.
Arguments manager_defaultTTL {A} _.
Arguments manager_monitor {A} _.

Definition NewManagerWithAdapter {A} (now : Time) (adapter : A)
    (ttl : Duration) : Manager A :=
  {| manager_adapter := Some adapter;
     manager_defaultTTL := ttl;
     manager_monitor := Some (NewMonitor now) |}.

Record QueryOptions := {
  TTL : Duration;
  opt_UseCache : bool;
  Ticket : option CacheTicket
}.

Definition QueryOption := QueryOptions -> QueryOptions.

Definition WithTTL (ttl : Duration) : QueryOption := fun o =>
  {| TTL := ttl; opt_UseCache := opt_UseCache o; Ticket := Ticket o |}.

Definition WithNoCache : QueryOption := fun o =>
  {| TTL := TTL o; opt_UseCache := false; Ticket := Ticket o |}.

Definition WithTicket (ticket : option CacheTicket) : QueryOption := fun o =>
  {| TTL := TTL o; opt_UseCache := opt_UseCache o; Ticket := ticket |}.

(** The readings of the clock made during one call of [Query], in program
    order: in [Ticket.Validate], at [start], inside [adapter.Get], at
    [time.Since(start)], inside the monitor's [track], inside
    [adapter.Set]. *)
Record QueryClock := {
  now_validate : Time;
  now_start : Time;
  now_get : Time;
  now_since : Time;
  now_track : Time;
  now_set : Time
}.

Definition ManagerDeletePattern {A} {backend : Adapter A} (m : Manager A)
    (order : list string) (pattern : string)
  : Z * option error * Manager A :=
  match manager_adapter m with
  | None => (0, Some "cache adapter is nil", m)
  | Some a =>
      let '(n, err, a') := adapter_DeletePattern a order pattern in
      (n, err, {| manager_adapter := Some a';
                  manager_defaultTTL := manager_defaultTTL m;
                  manager_monitor := manager_monitor m |})
  end.

Section Executor.
Context {A : Type} {backend : Adapter A}.
Context {T : Type} {codec : JSON T}.
(** [W] is the state the producer closes over; a producer is a function
    of that state and does not act on the backend itself. *)
Context {W : Type}.
Variable zero : T.

Definition Producer := W -> (T * option error) * W.

Definition build_options (m : Manager A) (opts : list QueryOption)
  : QueryOptions :=
  foldl (fun o opt => opt o)
        {| TTL := manager_defaultTTL m; opt_UseCache := true;
           Ticket := None |}
        opts.

(** Lines 211-226: the lookup.  The first component is the value served
    from the cache, if any. *)
Definition Query_lookup (clk : QueryClock) (options : QueryOptions)
    (a : A) (mon : option Monitor) (key : string)
  : option T * A * option Monitor :=
  if opt_UseCache options then
    let '(data, err, a') := adapter_Get a (now_get clk) key in
    let elapsed := Since (now_since clk) (now_start clk) in
    match err, data with
    | None, Some d =>
        let mon' :=
          option_map (fun m => RecordHit m (now_track clk) elapsed) mon in
        match json_Unmarshal d with
        | inl cached => (Some cached, a', mon')
        | inr _ => (None, a', mon')
        end
    | _, _ =>
        (None, a',
         option_map (fun m => RecordMiss m (now_track clk) elapsed) mon)
    end
  else (None, a, mon).

(** Lines 228-241: the producer and the write-back. *)
Definition Query_produce (clk : QueryClock) (options : QueryOptions)
    (defaultTTL : Duration) (a : A) (key : string) (queryFunc : Producer)
    (w : W) : (T * option error) * A * W :=
  let '((result, err), w') := queryFunc w in
  match err with
  | Some e => ((zero, Some e), a, w')
  | None =>
      let a' :=
        if opt_UseCache options then
          let ttl := TTL options in
          let ttl := if ttl =? 0 then defaultTTL else ttl in
          (adapter_Set a (now_set clk) key result ttl).2
        else a in
      ((result, None), a', w')
  end.

Definition Query (clk : QueryClock) (manager : option (Manager A))
    (key : string) (queryFunc : Producer) (opts : list QueryOption) (w : W)
  : (T * option error) * option (Manager A) * W :=
  match manager with
  | None => ((zero, Some ErrManagerNil), None, w)
  | Some m =>
      match manager_adapter m with
      | None => ((zero, Some "cache adapter is nil"), Some m, w)
      | Some a =>
          let options := build_options m opts in
          let invalid :=
            match Ticket options with
            | Some t => Validate (Some t) (now_validate clk)
            | None => None
            end in
          match invalid with
          | Some err => ((zero, Some err), Some m, w)
          | None =>
              let '(hit, a1, mon1) :=
                Query_lookup clk options a (manager_monitor m) key in
              let rebuild a' :=
                Some {| manager_adapter := Some a';
                        manager_defaultTTL := manager_defaultTTL m;
                        manager_monitor := mon1 |} in
              match hit with
              | Some cached => ((cached, None), rebuild a1, w)
              | None =>
                  let '(r, a2, w') :=
                    Query_produce clk options (manager_defaultTTL m) a1 key
                                  queryFunc w in
                  (r, rebuild a2, w')
              end
          end
      end
  end.

End Executor.

(** ** pagination.go *)

Definition DefaultPageSize : Z := 20.
Definition DefaultPage : Z := 1.
Definition MaxPageSize : Z := 200.

Record PaginationParams := {
  Page : Z;
  PageSize : Z;
  UseCache : bool
}.

(** [params] is a pointer: [None] is nil.  A non-nil argument is updated in
    place and returned, so the result is also the caller's record. *)
Definition NormalizePaginationParams (params : option PaginationParams)
  : PaginationParams :=
  match params with
  | None =>
      {| Page := DefaultPage; PageSize := DefaultPageSize; UseCache := true |}
  | Some p =>
      let page := if Page p <=? 0 then DefaultPage else Page p in
      let size := if PageSize p <=? 0 then DefaultPageSize else PageSize p in
      let size := if MaxPageSize <? size then MaxPageSize else size in
      {| Page := page; PageSize := size; UseCache := UseCache p |}
  end.

Record PaginationResponse (T : Type) := {
  resp_Data : list T;
  resp_Total : Z;
  resp_Page : Z;
  resp_PageSize : Z;
  resp_TotalPages : Z;
  resp_FromCache : bool;
  resp_CacheKey : string;
  resp_DataHash : string
}.
Arguments resp_Data {T} _.
Arguments resp_Total {T} _.
Arguments resp_Page {T} _.
Arguments resp_PageSize {T} _.
Arguments resp_TotalPages {T} _.
Arguments resp_FromCache {T} _.
Arguments resp_CacheKey {T} _.
Arguments resp_DataHash {T} _.

(** [hex.EncodeToString] *)
Definition hex_digit (n : N) : ascii :=
  match n with
  | 0 => "0" | 1 => "1" | 2 => "2" | 3 => "3" | 4 => "4" | 5 => "5"
  | 6 => "6" | 7 => "7" | 8 => "8" | 9 => "9" | 10 => "a" | 11 => "b"
  | 12 => "c" | 13 => "d" | 14 => "e" | _ => "f"
  end%N%char.

Fixpoint hex_EncodeToString (src : bytes) : string :=
  match src with
  | EmptyString => ""
  | String c rest =>
      let n := N_of_ascii c in
      String (hex_digit (n / 16)%N)
        (String (hex_digit (n mod 16)%N) (hex_EncodeToString rest))
  end.

(** [sort.Strings]: the increasing arrangement of the keys under the
    bytewise order of Go strings. *)
Definition sort_Strings (keys : list string) : list string :=
  merge_sort String.le keys.

(** [fmt.Sprintf("%d", n)] *)
Definition Sprintf_d (n : Z) : string := pretty n.

Section Pagination.
Variable sha256_Sum256 : bytes -> bytes.

Definition GenerateDataHash {D : Type} {codec : JSON D} (data : D) : string :=
  let payload := marshal_or_nil data in
  let sum := sha256_Sum256 payload in
  hex_EncodeToString sum.

Definition BuildPaginationResponse {T : Type} {codec : JSON (list T)}
    (data : list T) (total : Z) (params : option PaginationParams)
    (cacheKey : string) (fromCache : bool) : PaginationResponse T :=
  let params := NormalizePaginationParams params in
  let pages :=
    Z.quot (wrap64 (wrap64 (total + PageSize params) - 1))
           (PageSize params) in
  {| resp_Data := data;
     resp_Total := total;
     resp_Page := Page params;
     resp_PageSize := PageSize params;
     resp_TotalPages := pages;
     resp_FromCache := fromCache;
     resp_CacheKey := cacheKey;
     resp_DataHash := GenerateDataHash data |}.
End Pagination.

Section CacheKey.
(** [V] stands for the dynamic values of [map[string]interface{}]. *)
Context {V : Type} {codec : JSON V}.

(** [json.Marshal(filters[k])]; a key that is not in the map reads as the
    nil interface, which encodes as [null]. *)
Definition filter_value (filters : gmap string V) (k : string) : string :=
  match filters !! k with
  | Some v => marshal_or_nil v
  | None => "null"
  end.

(** [order] is the order in which [for k := range filters] yields the
    keys. *)
Definition GenerateCacheKey (order : list string) (resource : string)
    (filters : gmap string V) (params : option PaginationParams) : string :=
  let params := NormalizePaginationParams params in
  let parts := [resource] in
  let parts :=
    if (0 <? size filters)%nat then
      let keys := foldl (fun keys k => keys ++ [k]) [] order in
      let keys := sort_Strings keys in
      foldl (fun parts k => parts ++ [k; filter_value filters k]) parts keys
    else parts in
  let parts :=
    parts ++ ["page"; Sprintf_d (Page params);
              "size"; Sprintf_d (PageSize params)] in
  Join parts ":".
End CacheKey.

(** [InvalidateCacheOnUpdate]; [order] is passed on to the backend. *)
Definition InvalidateCacheOnUpdate {A} {backend : Adapter A}
    (manager : option (Manager A)) (order : list string) (resource : string)
  : Z * option error * option (Manager A) :=
  match manager with
  | None => (0, Some ErrManagerNil, None)
  | Some m =>
      let pattern := resource +:+ ":" in
      let '(n, err, m') := ManagerDeletePattern m order pattern in
      (n, err, Some m')
  end.

(** ** Interleavings of [Get] with other callers

    Between the two critical sections of [Get] the lock is free: [env] is
    what the other callers did to the adapter in the meantime. *)
Definition MemGet_interleaved (env : MemoryCacheAdapter -> MemoryCacheAdapter)
    (m : MemoryCacheAdapter) (now : Time) (key : string)
  : option bytes * option error * MemoryCacheAdapter :=
  match Get_read m key with
  | None => (None, None, env m)
  | Some entry =>
      if expired entry now
      then (None, None, Get_remove (env m) key)
      else (Some (data entry), None, env m)
  end.

(** ** adapter.go: [Stats], [Ping], [Close] *)

(** The loop of [Stats]: the number of entries past their expiry, over the
    entries in the order [range] yields them. *)
Definition Stats_expired (now : Time) (order : list string)
    (c : gmap string memoryEntry) : Z :=
  foldl (fun n k =>
           match c !! k with
           | Some entry => if expired entry now then wrap64 (n + 1) else n
           | None => n
           end)
        0 order.

(** The result of [Stats] is a [map[string]interface{}] with three integer
    entries. *)
Definition MemStats (m : MemoryCacheAdapter) (now : Time)
    (order : list string) : gmap string Z * option error :=
  let total := Z.of_nat (size (cache m)) in
  let n := Stats_expired now order (cache m) in
  (<["total_items"%string := total]>
     (<["expired_items"%string := n]>
        (<["active_items"%string := wrap64 (total - n)]> ∅)),
   None).

Definition MemPing (m : MemoryCacheAdapter) : option error := None.

Definition MemClose (m : MemoryCacheAdapter) : option error := None.

(** ** monitor.go: [RecordEviction], [GetMetrics], [Reset] *)

Definition RecordEviction (m : Monitor) (count : Z) : Monitor :=
  {| metrics :=
       {| HitCount := HitCount (metrics m);
          MissCount := MissCount (metrics m);
          EvictionCount := wrap64 (EvictionCount (metrics m) + count);
          LastUpdate := LastUpdate (metrics m);
          AvgResponseTime := AvgResponseTime (metrics m) |};
     tracker := tracker m;
     maxTrack := maxTrack m |}.

Definition GetMetrics (m : Monitor) : CacheMetrics := metrics m.

Definition Reset (m : Monitor) (now : Time) : Monitor :=
  {| metrics := {| HitCount := 0; MissCount := 0; EvictionCount := 0;
                   LastUpdate := now; AvgResponseTime := 0 |};
     tracker := [];
     maxTrack := maxTrack m |}.

(** A run of the monitor: each observation is a hit ([true]) or a miss, the
    instant [track] reads, and the latency. *)
Definition observe (m : Monitor) (o : bool * Time * Duration) : Monitor :=
  if o.1.1 then RecordHit m o.1.2 o.2 else RecordMiss m o.1.2 o.2.

(** ** The ticket: [GenerateTicket] *)

(** The Unix epoch, in seconds after the zero instant of [time.Time]. *)
Definition unixEpoch : Z := 62135596800.

Definition Unix (t : Time) : Z := t / 1000000000 - unixEpoch.
Definition Nanosecond (t : Time) : Z := t mod 1000000000.

Definition GenerateTicket (sha256_Sum256 : bytes -> bytes) (now : Time)
    (userID : string) (ttl : Duration) : CacheTicket :=
  let src :=
    userID +:+ ":" +:+ Sprintf_d (Unix now) +:+ ":"
           +:+ Sprintf_d (Nanosecond now) in
  let hash := sha256_Sum256 src in
  {| UserID := userID;
     Token := String.substring 0 16 (hex_EncodeToString hash);
     IssuedAt := now;
     ExpiresAt := Add now ttl |}.

(** ** manager.go: [Set] and [Get] *)

Section ManagerSetGet.
Context {A : Type} {backend : Adapter A}.
Context {T : Type} {codec : JSON T}.

Definition ManagerSet (m : Manager A) (now : Time) (key : string)
    (value : T) (ttl : Duration) : option error * Manager A :=
  match manager_adapter m with
  | None => (Some "cache adapter is nil"%string, m)
  | Some a =>
      let ttl := if ttl =? 0 then manager_defaultTTL m else ttl in
      let '(err, a') := adapter_Set a now key value ttl in
      (err, {| manager_adapter := Some a';
               manager_defaultTTL := manager_defaultTTL m;
               manager_monitor := manager_monitor m |})
  end.

End ManagerSetGet.

(** ** strategy.go: [SmartCacheStrategy] *)

Definition Minute : Duration := 60 * 1000000000.

Record SmartCacheStrategy := {
  strategy_ttl : Duration;
  updateInterval : Duration;
  lastUpdate : Time
}.

Definition NewSmartCacheStrategy (now : Time) (ttl : Duration)
  : SmartCacheStrategy :=
  let interval := Z.quot ttl 2 in
  let interval := if interval <=? 0 then Minute else interval in
  {| strategy_ttl := ttl; updateInterval := interval; lastUpdate := now |}.

Definition ShouldRefresh (s : SmartCacheStrategy) (now : Time) : bool :=
  updateInterval s <? Since now (lastUpdate s).

Definition MarkUpdated (s : SmartCacheStrategy) (now : Time)
  : SmartCacheStrategy :=
  {| strategy_ttl := strategy_ttl s; updateInterval := updateInterval s;
     lastUpdate := now |}.

(** ** pagination.go: [QueryWithPagination] *)

(** A slice of data is a list; a nil slice and an empty slice are both
    [[]]. *)
Record paginationCacheItem (T : Type) := {
  item_Data : list T;
  item_Total : Z;
  item_DataHash : string
}.
Arguments item_Data {T} _.
Arguments item_Total {T} _.
Arguments item_DataHash {T} _.

(** A call returns, or panics: [QueryWithPagination] calls the adapter
    without checking that the manager has one. *)
Inductive outcome (X : Type) :=
| Returns (x : X)
| Panics.
Arguments Returns {X} _.
Arguments Panics {X}.

Definition with_DataHash {T} (r : PaginationResponse T) (hash : string)
  : PaginationResponse T :=
  {| resp_Data := resp_Data r; resp_Total := resp_Total r;
     resp_Page := resp_Page r; resp_PageSize := resp_PageSize r;
     resp_TotalPages := resp_TotalPages r; resp_FromCache := resp_FromCache r;
     resp_CacheKey := resp_CacheKey r; resp_DataHash := hash |}.

Definition with_adapter {A} (m : Manager A) (a : A) : Manager A :=
  {| manager_adapter := Some a;
     manager_defaultTTL := manager_defaultTTL m;
     manager_monitor := manager_monitor m |}.

Section PaginatedQuery.
Variable sha256_Sum256 : bytes -> bytes.
Context {A : Type} {backend : Adapter A}.
Context {T : Type} {list_codec : JSON (list T)}.
Context {item_codec : JSON (paginationCacheItem T)}.
Context {V : Type} {filter_codec : JSON V}.
Context {W : Type}.

(** The producer and what follows it; [a] is the adapter the write-back
    goes to, if caching is on. *)
Definition paginate_produce (m : Manager A) (a : option A) (now_set : Time)
    (params : PaginationParams) (key : string)
    (queryFunc : W -> (list T * Z * option error) * W) (w : W)
  : (option (PaginationResponse T) * option error) * option (Manager A) * W :=
  let keep := match a with Some a' => with_adapter m a' | None => m end in
  let '((data, total, err), w') := queryFunc w in
  match err with
  | Some e => ((None, Some e), Some keep, w')
  | None =>
      let resp :=
        BuildPaginationResponse sha256_Sum256 data total (Some params) key
          false in
      let m' :=
        match a with
        | Some a' =>
            with_adapter m
              (adapter_Set a' now_set key
                 {| item_Data := data; item_Total := total;
                    item_DataHash := resp_DataHash resp |}
                 (manager_defaultTTL m)).2
        | None => m
        end in
      ((Some resp, None), Some m', w')
  end.

(** [order] is the order in which the filters are ranged over when the key
    is derived; [now_get] and [now_set] are the clock readings of the
    backend's [Get] and [Set]. *)
Definition QueryWithPagination (now_get now_set : Time) (order : list string)
    (manager : option (Manager A)) (resource : string)
    (filters : gmap string V) (params : option PaginationParams)
    (queryFunc : W -> (list T * Z * option error) * W) (w : W)
  : outcome ((option (PaginationResponse T) * option error)
             * option (Manager A) * W) :=
  match manager with
  | None => Returns ((None, Some ErrManagerNil), None, w)
  | Some m =>
      let params := NormalizePaginationParams params in
      let key := GenerateCacheKey order resource filters (Some params) in
      if UseCache params then
        match manager_adapter m with
        | None => Panics
        | Some a =>
            let '(data, err, a1) := adapter_Get a now_get key in
            let cached :=
              match err, data with
              | None, Some d =>
                  match json_Unmarshal d with
                  | inl item => Some item
                  | inr _ => None
                  end
              | _, _ => None
              end in
            match cached with
            | Some item =>
                let resp :=
                  BuildPaginationResponse sha256_Sum256 (item_Data item)
                    (item_Total item) (Some params) key true in
                Returns ((Some (with_DataHash resp (item_DataHash item)),
                          None),
                         Some (with_adapter m a1), w)
            | None =>
                Returns (paginate_produce m (Some a1) now_set params key
                           queryFunc w)
            end
        end
      else Returns (paginate_produce m None now_set params key queryFunc w)
  end.

Definition QueryWithCache (now_get now_set : Time) (order : list string)
    (manager : option (Manager A)) (resource : string)
    (filters : gmap string V) (params : option PaginationParams)
    (queryFunc : W -> (list T * Z * option error) * W) (w : W) :=
  match manager with
  | None => Returns ((None, Some ErrManagerNil), None, w)
  | Some _ =>
      QueryWithPagination now_get now_set order manager resource filters
        params queryFunc w
  end.
End PaginatedQuery.

(** Decimal digits, as [fmt.Sprintf("%d", n)] prints them for [n >= 0]. *)
Definition is_digit (c : ascii) : bool :=
  let n := N_of_ascii c in ((48 <=? n) && (n <=? 57))%N.

Fixpoint all_digits (s : string) : bool :=
  match s with
  | EmptyString => true
  | String c rest => is_digit c && all_digits rest
  end.

(** ** strategy.go: [Prefetch] *)

Record PrefetchCacheStrategy := {
  enabled : bool;
  batchSize : Z
}.

Definition NewPrefetchCacheStrategy (enabled : bool) (batchSize : Z)
  : PrefetchCacheStrategy :=
  {| enabled := enabled;
     batchSize := if batchSize <=? 0 then 1 else batchSize |}.

(** [items[lo:hi]], for [0 <= lo <= hi <= len(items)]. *)
Definition slice {T} (items : list T) (lo hi : Z) : list T :=
  take (Z.to_nat (hi - lo)) (drop (Z.to_nat lo) items).

Section Prefetching.
Variable sha256_Sum256 : bytes -> bytes.
Context {A : Type} {backend : Adapter A}.
Context {T : Type} {list_codec : JSON (list T)}.
Context {item_codec : JSON (paginationCacheItem T)}.
(** [V] stands for the values of the filters, of which there are none. *)
Context {V : Type} {filter_codec : JSON V}.

(** The slice of the items that goes on a page. *)
Definition page_items (items : list T) (pageSize page : Z) : list T :=
  let len := Z.of_nat (length items) in
  let offset := wrap64 (wrap64 (page - 1) * pageSize) in
  let stop := wrap64 (offset + pageSize) in
  let stop := if len <? stop then len else stop in
  slice items offset stop.

(** The key of a page; the filters are nil. *)
Definition page_key (resource : string) (pageSize page : Z) : string :=
  GenerateCacheKey [] resource (∅ : gmap string V)
    (Some {| Page := page; PageSize := pageSize; UseCache := true |}).

(** The body of the loop, for one page; a failed [Set] is logged and the
    loop goes on. *)
Definition Prefetch_page (now_at : Z -> Time) (resource : string)
    (items : list T) (pageSize : Z) (ttl : Duration) (m : Manager A)
    (page : Z) : Manager A :=
  let pageData := page_items items pageSize page in
  (ManagerSet m (now_at page) (page_key resource pageSize page)
     {| item_Data := pageData;
        item_Total := Z.of_nat (length items);
        item_DataHash := GenerateDataHash sha256_Sum256 pageData |}
     ttl).2.

Definition Prefetch_pages (strategy : PrefetchCacheStrategy)
    (items : list T) (pageSize : Z) : Z :=
  let totalPages :=
    Z.quot (wrap64 (wrap64 (Z.of_nat (length items) + pageSize) - 1))
           pageSize in
  if batchSize strategy <? totalPages then batchSize strategy else totalPages.

(** [now_at page] is the clock reading of the [Set] of the page. *)
Definition Prefetch (now_at : Z -> Time)
    (strategy : option PrefetchCacheStrategy) (manager : option (Manager A))
    (resource : string) (items : list T) (pageSize : Z) (ttl : Duration)
  : option error * option (Manager A) :=
  match manager, strategy with
  | Some m, Some s =>
      if enabled s then
        let pageSize := if pageSize <=? 0 then DefaultPageSize else pageSize in
        let totalPages := Prefetch_pages s items pageSize in
        (None,
         Some (foldl (Prefetch_page now_at resource items pageSize ttl) m
                 (seqZ 1 totalPages)))
      else (None, manager)
  | _, _ => (None, manager)
  end.
End Prefetching.

(** ** Sample codecs, to run the model on examples

    A decimal codec for counters and a quoting codec for strings; they stand
    in for [encoding/json] on the inputs of the examples only. *)
Fixpoint parse_digits (s : string) (acc : Z) : option Z :=
  match s with
  | EmptyString => Some acc
  | String c rest =>
      let n := Z.of_N (N_of_ascii c) in
      if (48 <=? n) && (n <=? 57)
      then parse_digits rest (10 * acc + (n - 48))
      else None
  end.

Definition parse_decimal (s : string) : Z + error :=
  let err := inr "invalid character"%string in
  match s with
  | EmptyString => inr "unexpected end of JSON input"%string
  | String "-"%char (String c rest) =>
      match parse_digits (String c rest) 0 with
      | Some n => inl (- n)
      | None => err
      end
  | _ => match parse_digits s 0 with Some n => inl n | None => err end
  end.

Definition decimal_codec : JSON Z :=
  {| json_Marshal := fun n => inl (pretty n);
     json_Unmarshal := parse_decimal |}.

Definition quote_codec : JSON string :=
  {| json_Marshal := fun s => inl ("'" +:+ s +:+ "'");
     json_Unmarshal := fun b =>
       match b with
       | String "'"%char rest =>
           inl (String.substring 0 (String.length rest - 1) rest)
       | _ => inr "invalid character"%string
       end |}.

(** A codec whose encoder always fails, as [json.Marshal] does on a channel
    or a function value. *)
Definition failing_codec : JSON unit :=
  {| json_Marshal := fun _ => inr "unsupported type"%string;
     json_Unmarshal := fun _ => inr "unsupported type"%string |}.

(** Sample inputs of [Query]: a clock, and producers that count their
    invocations in the state they close over. *)
Definition sample_clock : QueryClock :=
  {| now_validate := 100; now_start := 100; now_get := 101;
     now_since := 102; now_track := 103; now_set := 104 |}.

Definition counting_producer {T} (result : T) : nat -> (T * option error) * nat :=
  fun calls => ((result, None), S calls).


Definition sample_manager (c : gmap string memoryEntry)
  : Manager MemoryCacheAdapter :=
  NewManagerWithAdapter 0 (with_cache (NewMemoryCacheAdapter 60) c) 60.

(** * Properties *)

(** ** Arithmetic of [int64] *)

Lemma wrap64_id z : int64_range z -> wrap64 z = z.
Proof.
  unfold int64_range, wrap64. intros Hz.
  rewrite Z.mod_small; lia.
Qed.

Lemma wrap64_range z : int64_range (wrap64 z).
Proof.
  unfold int64_range, wrap64.
  pose proof (Z.mod_pos_bound (z + 2 ^ 63) (2 ^ 64)). lia.
Qed.

(** ** The in-process backend: [Set] and [Get] *)

Lemma expired_zero entry now : expireAt entry = zeroTime -> expired entry now = false.
Proof. unfold expired, IsZero. intros ->. reflexivity. Qed.

Lemma expired_spec entry now :
  expired entry now = true <-> expireAt entry <> 0 /\ expireAt entry < now.
Proof.
  unfold expired, IsZero, After.
  rewrite andb_true_iff, negb_true_iff, Z.eqb_neq, Z.ltb_lt. tauto.
Qed.

Lemma MemGet_live m now key entry :
  cache m !! key = Some entry -> expired entry now = false ->
  MemGet m now key = (Some (data entry), None, m).
Proof. unfold MemGet, Get_read. intros -> ->. reflexivity. Qed.

Lemma MemGet_expired m now key entry :
  cache m !! key = Some entry -> expired entry now = true ->
  MemGet m now key = (None, None, Get_remove m key).
Proof. unfold MemGet, Get_read. intros -> ->. reflexivity. Qed.

Lemma MemGet_absent m now key :
  cache m !! key = None -> MemGet m now key = (None, None, m).
Proof. unfold MemGet, Get_read. intros ->. reflexivity. Qed.

Section SetProperties.
Context {V : Type} {codec : JSON V}.

(** What a successful [Set] stores, as a function of the requested TTL. *)
Lemma MemSet_stores m now key (v : V) ttl payload :
  json_Marshal v = inl payload ->
  let eff := if ttl =? 0 then defaultTTL m else ttl in
  MemSet m now key v ttl =
    (None,
     with_cache m
       (<[key := {| data := payload;
                    expireAt := if 0 <? eff then Add now eff else zeroTime |}]>
          (cache m))).
Proof. intros Hp. unfold MemSet. rewrite Hp. reflexivity. Qed.

Lemma MemSet_lookup m now key (v : V) ttl payload :
  json_Marshal v = inl payload ->
  let eff := if ttl =? 0 then defaultTTL m else ttl in
  cache (MemSet m now key v ttl).2 !! key =
    Some {| data := payload;
            expireAt := if 0 <? eff then Add now eff else zeroTime |}.
Proof.
  intros Hp eff. rewrite (MemSet_stores _ _ _ _ _ _ Hp). simpl.
  apply lookup_insert_eq.
Qed.

(** C10: a strictly negative TTL stores an entry without expiry, which
    [Get] serves at every time, from any state of the backend in which the
    entry has not been overwritten or deleted, leaving that state as it
    is. *)
Theorem MemSet_negative_ttl_never_expires m now0 key (v : V) ttl payload :
  ttl < 0 ->
  json_Marshal v = inl payload ->
  (MemSet m now0 key v ttl).1 = None /\
  cache (MemSet m now0 key v ttl).2 !! key =
    Some {| data := payload; expireAt := zeroTime |} /\
  forall m' now,
    cache m' !! key = cache (MemSet m now0 key v ttl).2 !! key ->
    MemGet m' now key = (Some payload, None, m').
Proof.
  intros Hneg Hp.
  pose proof (MemSet_lookup m now0 key v ttl payload Hp) as Hl.
  cbv zeta in Hl.
  assert ((ttl =? 0) = false) as E0 by (apply Z.eqb_neq; lia).
  assert ((0 <? ttl) = false) as E1 by (apply Z.ltb_ge; lia).
  rewrite E0, E1 in Hl.
  split; [|split].
  - rewrite (MemSet_stores _ _ _ _ _ _ Hp). reflexivity.
  - exact Hl.
  - intros m' now Hm'. rewrite Hl in Hm'.
    rewrite (MemGet_live _ _ _ _ Hm'); [reflexivity|].
    apply expired_zero. reflexivity.
Qed.

End SetProperties.

Lemma MemSet_negative_ttl_never_expires_witness :
  (-1 < 0) /\
  json_Marshal (JSON := quote_codec) "v"%string = inl "'v'"%string /\
  forall m' now,
    cache m' !! "k"%string =
      cache (MemSet (codec := quote_codec) (NewMemoryCacheAdapter 60) 5 "k" "v" (-1)).2
        !! "k"%string ->
    MemGet m' now "k" = (Some "'v'"%string, None, m').
Proof.
  split; [lia|]. split; [reflexivity|].
  apply (MemSet_negative_ttl_never_expires (codec := quote_codec)
           (NewMemoryCacheAdapter 60) 5 "k" "v" (-1) "'v'");
    [lia | reflexivity].
Defined.



(** ** The counters *)

Section CounterProperties.
Context {int64_json : JSON Z}.

Lemma addDelta_live m now key delta entry payload :
  cache m !! key = Some entry ->
  expired entry now = false ->
  json_Marshal (wrap64 (decoded (data entry) + delta)) = inl payload ->
  addDelta m now key delta =
    (wrap64 (decoded (data entry) + delta), None,
     with_cache m (<[key := {| data := payload;
                               expireAt := expireAt entry |}]> (cache m))).
Proof.
  intros Hk He Hp. unfold addDelta. rewrite Hk, He, Hp. reflexivity.
Qed.

Lemma addDelta_fresh m now key delta payload :
  (cache m !! key = None \/
   exists entry, cache m !! key = Some entry /\ expired entry now = true) ->
  int64_range delta ->
  json_Marshal delta = inl payload ->
  addDelta m now key delta =
    (delta, None,
     with_cache m (<[key := {| data := payload;
                               expireAt := zeroTime |}]> (cache m))).
Proof.
  intros Hk Hd Hp. unfold addDelta.
  destruct Hk as [Hk | (entry & Hk & He)].
  - rewrite Hk. rewrite Z.add_0_l, (wrap64_id _ Hd), Hp. reflexivity.
  - rewrite Hk, He. rewrite Z.add_0_l, (wrap64_id _ Hd), Hp.
    rewrite insert_delete_eq. reflexivity.
Qed.
End CounterProperties.

Section CounterClaim.
Context {int64_json : JSON Z}.

(** C7: [Incr] and [Decr] on an unexpired entry add to the decoded value
    (zero for a payload that does not decode) and store the result with
    the expiry the entry had; on an absent key, or one whose entry has
    expired, they return the delta and store it with no expiry.
    [enc] is the encoder of [int64], which cannot fail. *)
Theorem Incr_Decr_keep_expiry (enc : Z -> bytes) m now key :
  (forall n, json_Marshal n = inl (enc n)) ->
  let created (delta : Z) :=
    (delta, @None error,
     with_cache m (<[key := {| data := enc delta; expireAt := zeroTime |}]>
                     (cache m))) in
  let outcome (delta : Z) :=
    match cache m !! key with
    | Some entry =>
        if expired entry now then created delta
        else
          let current :=
            match json_Unmarshal (data entry) with
            | inl n => n
            | inr _ => 0
            end in
          (wrap64 (current + delta), None,
           with_cache m
             (<[key := {| data := enc (wrap64 (current + delta));
                          expireAt := expireAt entry |}]> (cache m)))
    | None => created delta
    end in
  MemIncr m now key = outcome 1 /\ MemDecr m now key = outcome (-1).
Proof.
  intros Henc created outcome.
  assert (forall delta, int64_range delta ->
                        addDelta m now key delta = outcome delta) as Hall.
  { intros delta Hd. unfold outcome, created.
    destruct (cache m !! key) as [entry|] eqn:Hk.
    - destruct (expired entry now) eqn:He.
      + apply addDelta_fresh; [right; eauto | exact Hd | apply Henc].
      + apply (addDelta_live m now key delta entry); [exact Hk | exact He |].
        apply Henc.
    - apply addDelta_fresh; [left; exact Hk | exact Hd | apply Henc]. }
  split; apply Hall; unfold int64_range; lia.
Qed.
End CounterClaim.

Lemma Incr_Decr_keep_expiry_witness :
  let m := with_cache (NewMemoryCacheAdapter 60)
             {[ "hits"%string := {| data := "41"; expireAt := 500 |} ]} in
  (forall n, json_Marshal (JSON := decimal_codec) n = inl (pretty n)) /\
  MemIncr (int64_json := decimal_codec) m 100 "hits" =
    (42, None,
     with_cache m (<["hits"%string := {| data := "42"; expireAt := 500 |}]>
                     (cache m))).
Proof.
  intros m. split; [reflexivity|].
  destruct (Incr_Decr_keep_expiry (int64_json := decimal_codec)
              pretty m 100 "hits" (fun n => eq_refl)) as [Hincr _].
  exact Hincr.
Defined.

(** ** [Get] against a concurrent [Set] *)

Lemma MemGet_interleaved_alone m now key :
  MemGet_interleaved (fun m => m) m now key = MemGet m now key.
Proof. reflexivity. Qed.

(** Whatever the other callers did between the two critical sections, a
    [Get] that read an expired entry removes the key. *)
Lemma MemGet_interleaved_removes env m now key entry :
  Get_read m key = Some entry -> expired entry now = true ->
  MemGet_interleaved env m now key = (None, None, Get_remove (env m) key) /\
  cache (MemGet_interleaved env m now key).2 !! key = None.
Proof.
  intros Hr He. unfold MemGet_interleaved. rewrite Hr, He.
  split; [reflexivity|]. simpl. apply lookup_delete_eq.
Qed.

(** C5, the code at the failing interleaving: the entry under ["k"] expired
    at 10; a [Get] at 20 reads it under the read lock; before it takes the
    write lock another caller stores a new value with a TTL of 100; the
    [Get] then removes the key without looking at the entry again, and the
    new, unexpired entry is lost. *)
Theorem MemGet_interleaved_deletes_refreshed_entry :
  let m0 := with_cache (NewMemoryCacheAdapter 60)
              {[ "k"%string := {| data := "'old'"; expireAt := 10 |} ]} in
  let refresh m := (MemSet (codec := quote_codec) m 20 "k" "new" 100).2 in
  let fresh := {| data := "'new'"; expireAt := 120 |} in
  let r := MemGet_interleaved refresh m0 20 "k" in
  cache (refresh m0) !! "k"%string = Some fresh /\
  expired fresh 20 = false /\
  MemGet (refresh m0) 20 "k" = (Some "'new'"%string, None, refresh m0) /\
  r.1 = (None, None) /\
  cache r.2 !! "k"%string = None.
Proof. vm_compute. repeat split; reflexivity. Qed.

(** ** [DeletePattern] *)

Lemma string_app_nil (t : string) : "" +:+ t = t.
Proof. reflexivity. Qed.

Lemma string_app_cons a (s t : string) :
  String a s +:+ t = String a (s +:+ t).
Proof. reflexivity. Qed.

Lemma length_string_app (s t : string) :
  String.length (s +:+ t) = (String.length s + String.length t)%nat.
Proof.
  induction s as [|a s IH]; [reflexivity|].
  rewrite string_app_cons. simpl. now rewrite IH.
Qed.

Lemma substring_full (s : string) :
  String.substring 0 (String.length s) s = s.
Proof. induction s as [|b s IH]; simpl; [reflexivity | now f_equal]. Qed.

Lemma substring_split (n : nat) (s : string) :
  (n <= String.length s)%nat ->
  String.substring 0 n s +:+ String.substring n (String.length s - n) s = s.
Proof.
  revert n. induction s as [|a s IH]; intros [|n] Hn; simpl in *; try lia.
  - reflexivity.
  - rewrite string_app_nil. now rewrite substring_full.
  - rewrite string_app_cons. f_equal. apply IH. lia.
Qed.

Lemma substring_app_l (s t : string) :
  String.substring 0 (String.length s) (s +:+ t) = s.
Proof.
  induction s as [|a s IH].
  - rewrite string_app_nil. now destruct t.
  - rewrite string_app_cons. simpl. now f_equal.
Qed.

Lemma substring_app_r (s t : string) :
  String.substring (String.length s) (String.length t) (s +:+ t) = t.
Proof.
  induction s as [|a s IH].
  - rewrite string_app_nil. apply substring_full.
  - rewrite string_app_cons. simpl. exact IH.
Qed.

Lemma HasSuffix_app (s t : string) : HasSuffix (s +:+ t) t = true.
Proof.
  unfold HasSuffix. rewrite length_string_app.
  replace (String.length s + String.length t - String.length t)%nat
    with (String.length s) by lia.
  rewrite substring_app_r, String.eqb_refl, andb_true_r.
  apply Nat.leb_le. lia.
Qed.

Lemma TrimSuffix_app (s t : string) : TrimSuffix (s +:+ t) t = s.
Proof.
  unfold TrimSuffix. rewrite HasSuffix_app, length_string_app.
  replace (String.length s + String.length t - String.length t)%nat
    with (String.length s) by lia.
  apply substring_app_l.
Qed.

(** [TrimSuffix] either leaves the string or removes exactly the suffix. *)
Lemma TrimSuffix_cases (s t : string) :
  (HasSuffix s t = false /\ TrimSuffix s t = s) \/
  (HasSuffix s t = true /\ s = TrimSuffix s t +:+ t).
Proof.
  unfold TrimSuffix. destruct (HasSuffix s t) eqn:E; [right | left; auto].
  split; [reflexivity|]. unfold HasSuffix in E.
  apply andb_true_iff in E as [Hlen Heq].
  apply Nat.leb_le in Hlen. apply String.eqb_eq in Heq.
  pose proof (substring_split (String.length s - String.length t) s) as Hs.
  replace (String.length s - (String.length s - String.length t))%nat
    with (String.length t) in Hs by lia.
  rewrite Heq in Hs. symmetry. apply Hs. lia.
Qed.

Lemma TrimSuffix_colon (resource : string) :
  TrimSuffix (resource +:+ ":") "*" = resource +:+ ":".
Proof.
  destruct (TrimSuffix_cases (resource +:+ ":") "*") as [[_ E] | [E _]];
    [exact E | exfalso].
  unfold HasSuffix in E. apply andb_true_iff in E as [_ E].
  rewrite length_string_app in E. simpl in E.
  replace (String.length resource + 1 - 1)%nat
    with (String.length resource) in E by lia.
  change 1%nat with (String.length ":") in E.
  rewrite substring_app_r in E. discriminate E.
Qed.

Section DeletePatternLoop.
Variable prefix : string.

Let body (st : gmap string memoryEntry * Z) (k : string) :=
  if HasPrefix k prefix then (delete k st.1, wrap64 (st.2 + 1)) else st.

Lemma DeletePattern_loop_lookup order c n k :
  (foldl body (c, n) order).1 !! k =
    if bool_decide (k ∈ order) && HasPrefix k prefix then None else c !! k.
Proof.
  revert c n. induction order as [|a order IH]; intros c n; simpl.
  - reflexivity.
  - unfold body at 2. simpl.
    destruct (HasPrefix a prefix) eqn:Ha.
    + rewrite IH. destruct (decide (k = a)) as [->|Hne].
      * rewrite Ha, andb_true_r, lookup_delete_eq.
        rewrite (bool_decide_eq_true_2 (a ∈ a :: order)) by (apply elem_of_cons; now left).
        now destruct (bool_decide (a ∈ order)).
      * rewrite lookup_delete_ne by congruence.
        rewrite (bool_decide_ext (k ∈ a :: order) (k ∈ order))
          by (rewrite elem_of_cons; tauto).
        reflexivity.
    + rewrite IH. destruct (decide (k = a)) as [->|Hne].
      * rewrite Ha, !andb_false_r. reflexivity.
      * rewrite (bool_decide_ext (k ∈ a :: order) (k ∈ order))
          by (rewrite elem_of_cons; tauto).
        reflexivity.
Qed.

Lemma DeletePattern_loop_count order c n :
  0 <= n -> n + Z.of_nat (length order) < 2 ^ 63 ->
  (foldl body (c, n) order).2 =
    n + Z.of_nat (length (filter (fun k => HasPrefix k prefix = true) order)).
Proof.
  revert c n. induction order as [|a order IH]; intros c n Hn Hb; simpl.
  - lia.
  - simpl in Hb. unfold body at 2. simpl.
    destruct (HasPrefix a prefix) eqn:Ha.
    + rewrite filter_cons_True by exact Ha.
      assert (wrap64 (n + 1) = n + 1) as ->
        by (apply wrap64_id; unfold int64_range; lia).
      rewrite IH by lia. simpl. lia.
    + rewrite filter_cons_False by congruence.
      rewrite IH by lia. reflexivity.
Qed.
End DeletePatternLoop.

(** The number of keys of a map that satisfy [P], counted on any
    enumeration of the keys. *)
Lemma size_filter_keys {X} (P : string -> Prop) `{!forall k, Decision (P k)}
    (c : gmap string X) (order : list string) :
  range_order c order ->
  length (filter P order) = size (filter (fun kv => P kv.1) c).
Proof.
  unfold range_order. intros ->. clear order.
  induction c as [|k x c Hk IH] using map_ind.
  - rewrite map_filter_empty, map_to_list_empty. reflexivity.
  - rewrite (map_to_list_insert _ _ _ Hk). rewrite fmap_cons. simpl.
    rewrite map_filter_insert. simpl.
    destruct (decide (P k)) as [HP|HP].
    + rewrite filter_cons_True by exact HP. simpl.
      rewrite map_size_insert_None, IH; [reflexivity|].
      apply map_lookup_filter_None. left. exact Hk.
    + rewrite filter_cons_False by exact HP.
      rewrite delete_id by exact Hk. exact IH.
Qed.

Lemma range_order_length {X} (c : gmap string X) order :
  range_order c order -> length order = size c.
Proof.
  unfold range_order. intros ->.
  rewrite length_fmap. apply length_map_to_list.
Qed.

Lemma range_order_elem {X} (c : gmap string X) order k :
  range_order c order -> k ∈ order <-> is_Some (c !! k).
Proof.
  unfold range_order. intros ->. rewrite list_elem_of_fmap. split.
  - intros ([k' x] & -> & Hin). apply elem_of_map_to_list in Hin. eauto.
  - intros [x Hx]. exists (k, x). split; [reflexivity|].
    now apply elem_of_map_to_list.
Qed.

(** [DeletePattern] on a non-empty pattern. *)
Lemma MemDeletePattern_spec m order pattern :
  pattern <> ""%string ->
  range_order (cache m) order ->
  Z.of_nat (size (cache m)) < 2 ^ 63 ->
  let prefix := TrimSuffix pattern "*" in
  let r := MemDeletePattern m order pattern in
  r.1.2 = None /\
  r.1.1 = Z.of_nat (size (filter (fun kv => HasPrefix kv.1 prefix = true)
                            (cache m))) /\
  r.1.1 = Z.of_nat (size (cache m)) - Z.of_nat (size (cache r.2)) /\
  defaultTTL r.2 = defaultTTL m /\
  forall k, cache r.2 !! k =
            if HasPrefix k prefix then None else cache m !! k.
Proof.
  intros Hne Hord Hsz prefix r.
  assert (r = ((DeletePattern_loop prefix order (cache m)).2, None,
               with_cache m (DeletePattern_loop prefix order (cache m)).1))
    as Hr.
  { unfold r, MemDeletePattern.
    destruct (String.eqb_spec pattern "") as [E|_]; [contradiction|].
    reflexivity. }
  assert (forall k, cache r.2 !! k =
                    if HasPrefix k prefix then None else cache m !! k) as Hlk.
  { intros k. rewrite Hr. simpl. unfold DeletePattern_loop.
    rewrite DeletePattern_loop_lookup.
    destruct (HasPrefix k prefix); [|now rewrite andb_false_r].
    rewrite andb_true_r. case_bool_decide as Hin; [reflexivity|].
    destruct (cache m !! k) eqn:E; [|reflexivity].
    exfalso. apply Hin. apply (range_order_elem _ _ _ Hord). eauto. }
  assert (r.1.1 = Z.of_nat (size (filter
            (fun kv => HasPrefix kv.1 prefix = true) (cache m)))) as Hcount.
  { rewrite Hr. simpl. unfold DeletePattern_loop.
    rewrite DeletePattern_loop_count;
      [|lia | rewrite (range_order_length _ _ Hord); lia].
    rewrite (size_filter_keys (fun k => HasPrefix k prefix = true)
               _ _ Hord). lia. }
  split; [now rewrite Hr|]. split; [exact Hcount|].
  split; [|split; [now rewrite Hr | exact Hlk]].
  rewrite Hcount.
  assert (cache r.2 =
          filter (fun kv => ~ HasPrefix kv.1 prefix = true) (cache m)) as ->.
  { apply map_eq. intros k. rewrite Hlk, map_lookup_filter.
    destruct (cache m !! k) as [x|]; simpl.
    - destruct (HasPrefix k prefix) eqn:E.
      + rewrite option_guard_False; [reflexivity | simpl; congruence].
      + rewrite option_guard_True; [reflexivity | simpl; congruence].
    - now destruct (HasPrefix k prefix). }
  pose proof (map_filter_union_complement
                (fun kv : string * memoryEntry => HasPrefix kv.1 prefix = true)
                (cache m)) as Hu.
  pose proof (map_disjoint_filter_complement
                (fun kv : string * memoryEntry => HasPrefix kv.1 prefix = true)
                (cache m)) as Hd.
  rewrite <- Hu at 2. rewrite (map_size_disj_union _ _ Hd). lia.
Qed.




(** ** The pagination codec *)

(** C8: normalisation is idempotent, its result has a page of at least 1
    and a page size between 1 and [MaxPageSize], and a missing ([nil]
    parameters) or non-positive page or page size becomes the default. *)
Theorem NormalizePaginationParams_idempotent params :
  let n := NormalizePaginationParams params in
  NormalizePaginationParams (Some n) = n /\
  1 <= Page n /\
  1 <= PageSize n <= MaxPageSize /\
  match params with
  | None => Page n = DefaultPage /\ PageSize n = DefaultPageSize
  | Some p =>
      ((Page p <= 0 /\ Page n = DefaultPage) \/
       (0 < Page p /\ Page n = Page p)) /\
      ((PageSize p <= 0 /\ PageSize n = DefaultPageSize) \/
       (0 < PageSize p /\ PageSize n = Z.min (PageSize p) MaxPageSize)) /\
      UseCache n = UseCache p
  end.
Proof.
  unfold NormalizePaginationParams, DefaultPage, DefaultPageSize, MaxPageSize.
  destruct params as [[page size use]|]; simpl.
  - repeat match goal with
           | |- context [?a <=? ?b] => destruct (a <=? b) eqn:?; simpl
           | |- context [?a <? ?b] => destruct (a <? b) eqn:?; simpl
           end;
      repeat match goal with
             | E : (_ <? _) = true |- _ => apply Z.ltb_lt in E
             | E : (_ <? _) = false |- _ => apply Z.ltb_ge in E
             | E : (_ <=? _) = true |- _ => apply Z.leb_le in E
             | E : (_ <=? _) = false |- _ => apply Z.leb_gt in E
             end;
      try lia;
      (split; [f_equal; lia|]);
      (split; [lia|]); (split; [lia|]);
      (split; [|split; [|reflexivity]]);
      first [left; split; [lia | reflexivity] | right; split; lia].
  - repeat split; lia.
Qed.

Section HashClaim.
Variable sha256_Sum256 : bytes -> bytes.
Context {T : Type} {codec : JSON (list T)}.

(** C9: the hash of an envelope built by [BuildPaginationResponse] is
    [GenerateDataHash] of the data, whatever the total, the parameters,
    the cache key and the from-cache flag are. *)
Theorem DataHash_of_data_alone (data : list T) total1 total2 params1 params2
    key1 key2 fromCache1 fromCache2 :
  resp_DataHash
    (BuildPaginationResponse sha256_Sum256 data total1 params1 key1
       fromCache1) =
  resp_DataHash
    (BuildPaginationResponse sha256_Sum256 data total2 params2 key2
       fromCache2) /\
  resp_DataHash
    (BuildPaginationResponse sha256_Sum256 data total1 params1 key1
       fromCache1) =
  hex_EncodeToString (sha256_Sum256 (marshal_or_nil data)).
Proof. split; reflexivity. Qed.
End HashClaim.

Lemma foldl_snoc_id {X} (l acc : list X) :
  foldl (fun keys k => keys ++ [k]) acc l = acc ++ l.
Proof.
  revert acc. induction l as [|x l IH]; intros acc; simpl.
  - now rewrite app_nil_r.
  - rewrite IH, <- app_assoc. reflexivity.
Qed.

Lemma foldl_append_pairs (f : string -> string) keys parts :
  foldl (fun parts k => parts ++ [k; f k]) parts keys =
  parts ++ flat_map (fun k => [k; f k]) keys.
Proof.
  revert parts. induction keys as [|k keys IH]; intros parts; simpl.
  - now rewrite app_nil_r.
  - rewrite IH, <- app_assoc. reflexivity.
Qed.

Lemma sort_Strings_sorted keys : Sorted String.le (sort_Strings keys).
Proof. apply Sorted_merge_sort. apply _. Qed.

Lemma sort_Strings_Permutation keys : sort_Strings keys ≡ₚ keys.
Proof. apply merge_sort_Permutation. Qed.

(** The sorted arrangement does not depend on the order of the input. *)
Lemma sort_Strings_order keys1 keys2 :
  keys1 ≡ₚ keys2 -> sort_Strings keys1 = sort_Strings keys2.
Proof.
  intros Hp. apply (Sorted_unique String.le).
  - apply sort_Strings_sorted.
  - apply sort_Strings_sorted.
  - now rewrite !sort_Strings_Permutation.
Qed.

Section CacheKeyProperties.
Context {V : Type} {codec : JSON V}.

Lemma GenerateCacheKey_sorted order resource (filters : gmap string V)
    params :
  range_order filters order ->
  GenerateCacheKey order resource filters params =
    Join ([resource]
            ++ flat_map (fun k => [k; filter_value filters k])
                        (sort_Strings order)
            ++ ["page"; Sprintf_d (Page (NormalizePaginationParams params));
                "size";
                Sprintf_d (PageSize (NormalizePaginationParams params))])
         ":".
Proof.
  intros Hord. unfold GenerateCacheKey.
  destruct (Nat.ltb_spec 0 (size filters)) as [Hpos|Hzero].
  - rewrite foldl_snoc_id, foldl_append_pairs, <- app_assoc. reflexivity.
  - assert (order = []) as ->.
    { apply length_zero_iff_nil.
      rewrite (range_order_length _ _ Hord). lia. }
    reflexivity.
Qed.
End CacheKeyProperties.

Section CacheKeyClaim.
Context {V : Type} {codec : JSON V}.

(** C4: two filter maps with the same entries, ranged over in any two
    orders, and parameters with the same normalised page and page size
    give the same key; the key lists the filter names in increasing
    bytewise order, each followed by its encoded value, between the
    resource and the page and size. *)
Theorem GenerateCacheKey_order_independent resource
    (filters1 filters2 : gmap string V) params1 params2 order1 order2 :
  (forall k, filters1 !! k = filters2 !! k) ->
  range_order filters1 order1 ->
  range_order filters2 order2 ->
  Page (NormalizePaginationParams params1) =
    Page (NormalizePaginationParams params2) ->
  PageSize (NormalizePaginationParams params1) =
    PageSize (NormalizePaginationParams params2) ->
  GenerateCacheKey order1 resource filters1 params1 =
    GenerateCacheKey order2 resource filters2 params2 /\
  exists names,
    Sorted String.le names /\
    names ≡ₚ (map_to_list filters1).*1 /\
    GenerateCacheKey order1 resource filters1 params1 =
      Join ([resource]
              ++ flat_map (fun k => [k; filter_value filters1 k]) names
              ++ ["page";
                  Sprintf_d (Page (NormalizePaginationParams params1));
                  "size";
                  Sprintf_d (PageSize (NormalizePaginationParams params1))])
           ":".
Proof.
  intros Heq Ho1 Ho2 Hpage Hsize.
  apply map_eq in Heq. subst filters2.
  rewrite (GenerateCacheKey_sorted _ _ _ params1 Ho1).
  rewrite (GenerateCacheKey_sorted _ _ _ params2 Ho2).
  split.
  - rewrite Hpage, Hsize.
    rewrite (sort_Strings_order order1 order2); [reflexivity|].
    unfold range_order in *. now rewrite Ho1, Ho2.
  - exists (sort_Strings order1). split; [apply sort_Strings_sorted|].
    split; [|reflexivity].
    rewrite sort_Strings_Permutation. exact Ho1.
Qed.
End CacheKeyClaim.

Lemma GenerateCacheKey_order_independent_witness :
  let ab : gmap string string := <["a"%string := "1"%string]> (<["b"%string := "2"%string]> ∅) in
  let ba : gmap string string := <["b"%string := "2"%string]> (<["a"%string := "1"%string]> ∅) in
  let p1 := Some {| Page := 0; PageSize := 500; UseCache := true |} in
  let p2 := Some {| Page := 1; PageSize := 200; UseCache := false |} in
  range_order ab ["a"; "b"]%string /\
  range_order ba ["b"; "a"]%string /\
  GenerateCacheKey (codec := quote_codec) ["a"; "b"]%string "users" ab p1 =
    GenerateCacheKey (codec := quote_codec) ["b"; "a"]%string "users" ba p2 /\
  GenerateCacheKey (codec := quote_codec) ["b"; "a"]%string "users" ba p2 =
    "users:a:'1':b:'2':page:1:size:200"%string.
Proof.
  intros ab ba p1 p2.
  assert (range_order ab ["a"; "b"]%string) as H1 by (vm_compute; reflexivity).
  assert (range_order ba ["b"; "a"]%string) as H2.
  { unfold range_order. vm_compute. apply Permutation_swap. }
  split; [exact H1|]. split; [exact H2|]. split; [|reflexivity].
  apply (GenerateCacheKey_order_independent (codec := quote_codec)
           "users" ab ba p1 p2 ["a"; "b"]%string ["b"; "a"]%string);
    [ | exact H1 | exact H2 | reflexivity | reflexivity].
  intros k. unfold ab, ba.
  destruct (decide (k = "a"%string)) as [->|Ha]; [reflexivity|].
  destruct (decide (k = "b"%string)) as [->|Hb]; [reflexivity|].
  rewrite !lookup_insert_ne by congruence. reflexivity.
Defined.

(** ** The monitor *)

Lemma track_counts m now d :
  HitCount (metrics (track m now d)) = HitCount (metrics m) /\
  MissCount (metrics (track m now d)) = MissCount (metrics m).
Proof. split; reflexivity. Qed.

Lemma RecordHit_counts m now d :
  HitCount (metrics (RecordHit m now d)) = wrap64 (HitCount (metrics m) + 1) /\
  MissCount (metrics (RecordHit m now d)) = MissCount (metrics m).
Proof. split; reflexivity. Qed.

Lemma RecordMiss_counts m now d :
  HitCount (metrics (RecordMiss m now d)) = HitCount (metrics m) /\
  MissCount (metrics (RecordMiss m now d)) = wrap64 (MissCount (metrics m) + 1).
Proof. split; reflexivity. Qed.

(** ** The executor *)

(** X6: a [Get] that finds an expired entry removes it, and that is all a
    [Get] changes: at any later time every lookup answers as it would have
    without it. *)
Lemma MemGet_keeps_observations m now key k now' :
  now <= now' ->
  (MemGet (MemGet m now key).2 now' k).1 = (MemGet m now' k).1.
Proof.
  intros Hle. unfold MemGet at 2. unfold Get_read.
  destruct (cache m !! key) as [entry|] eqn:Hk; [|reflexivity].
  destruct (expired entry now) eqn:He; [|reflexivity]. simpl.
  destruct (decide (k = key)) as [->|Hne].
  - rewrite (MemGet_absent (Get_remove m key)) by apply lookup_delete_eq.
    rewrite (MemGet_expired m now' key entry Hk); [reflexivity|].
    apply expired_spec in He. apply expired_spec. lia.
  - unfold MemGet, Get_read, Get_remove. simpl.
    rewrite lookup_delete_ne by congruence.
    destruct (cache m !! k) as [e|]; [|reflexivity].
    destruct (expired e now'); reflexivity.
Qed.

Section ExecutorClaims.
Context {A : Type} {backend : Adapter A}.
Context {T : Type} {codec : JSON T}.
Context {W : Type}.
Variable zero : T.


(** C2, as the code has it: with caching on, a payload returned by [Get]
    is recorded as one hit, whether or not it decodes; when it decodes the
    value is returned and the producer is not run, when it does not the
    producer is run.  An absent key, or a failed [Get], is recorded as one
    miss, and the producer is run. *)
Theorem Query_records_lookup clk (m : Manager A) (a : A) (mon : Monitor) key
    (queryFunc : W -> (T * option error) * W) opts (w : W) :
  manager_adapter m = Some a ->
  manager_monitor m = Some mon ->
  match Ticket (build_options m opts) with
  | Some t => Validate (Some t) (now_validate clk) = None
  | None => True
  end ->
  opt_UseCache (build_options m opts) = true ->
  let got := adapter_Get a (now_get clk) key in
  let elapsed := Since (now_since clk) (now_start clk) in
  let hit := RecordHit mon (now_track clk) elapsed in
  let miss := RecordMiss mon (now_track clk) elapsed in
  let q := Query zero clk (Some m) key queryFunc opts w in
  (HitCount (metrics hit) = wrap64 (HitCount (metrics mon) + 1) /\
   MissCount (metrics hit) = MissCount (metrics mon)) /\
  (HitCount (metrics miss) = HitCount (metrics mon) /\
   MissCount (metrics miss) = wrap64 (MissCount (metrics mon) + 1)) /\
  match got.1.2, got.1.1 with
  | None, Some d =>
      q.1.2 ≫= manager_monitor = Some hit /\
      match json_Unmarshal d with
      | inl cached => q.1.1 = (cached, None) /\ q.2 = w
      | inr _ => q.2 = (queryFunc w).2
      end
  | _, _ =>
      q.1.2 ≫= manager_monitor = Some miss /\ q.2 = (queryFunc w).2
  end.
Proof.
  intros Ha Hmon Htk Hon got elapsed hit miss q.
  split; [apply RecordHit_counts|]. split; [apply RecordMiss_counts|].
  unfold q, Query. rewrite Ha.
  assert (match Ticket (build_options m opts) with
          | Some t => Validate (Some t) (now_validate clk)
          | None => None
          end = None) as ->.
  { destruct (Ticket (build_options m opts)); [exact Htk | reflexivity]. }
  unfold Query_lookup. rewrite Hon, Hmon. fold got. fold elapsed.
  destruct got as [[data err] a'] eqn:Hgot. simpl.
  unfold Query_produce.
  destruct err as [e|], data as [d|]; simpl.
  - destruct (queryFunc w) as [[r [e'|]] w']; simpl; auto.
  - destruct (queryFunc w) as [[r [e'|]] w']; simpl; auto.
  - destruct (json_Unmarshal d) as [cached|bad]; simpl; [auto|].
    destruct (queryFunc w) as [[r [e'|]] w']; simpl; auto.
  - destruct (queryFunc w) as [[r [e'|]] w']; simpl; auto.
Qed.
End ExecutorClaims.


(** A write-back that fails is not reported: the value cannot be encoded,
    [Set] answers with an error, and [Query] returns the producer's value
    with a nil error. *)
Example Query_swallows_Set_failure :
  let m := sample_manager ∅ in
  let q := Query (codec := failing_codec) tt sample_clock (Some m) "k"
             (counting_producer tt) [] 0%nat in
  (MemSet (codec := failing_codec) (NewMemoryCacheAdapter 60) 104 "k" tt 60).1
    = Some "marshal value failed: unsupported type"%string /\
  q.1.1 = (tt, None) /\ q.2 = 1%nat.
Proof. repeat split; reflexivity. Qed.

Lemma Query_records_lookup_witness :
  let m := sample_manager {[ "user:2"%string := {| data := "7"; expireAt := 0 |} ]} in
  let q := Query (codec := decimal_codec) 0 sample_clock (Some m) "user:2"
             (counting_producer 9) [] 0%nat in
  opt_UseCache (build_options m []) = true /\
  q.1.1 = (7, None) /\
  q.2 = 0%nat /\
  HitCount <$> (metrics <$> (q.1.2 ≫= manager_monitor)) = Some 1 /\
  MissCount <$> (metrics <$> (q.1.2 ≫= manager_monitor)) = Some 0.
Proof.
  intros m q.
  pose proof (Query_records_lookup (codec := decimal_codec) 0 sample_clock m
                (with_cache (NewMemoryCacheAdapter 60)
                   {[ "user:2"%string := {| data := "7"; expireAt := 0 |} ]})
                (NewMonitor 0) "user:2" (counting_producer 9) [] 0%nat
                eq_refl eq_refl I eq_refl)
    as (_ & _ & Hmon & Hres & Hcalls).
  fold q in Hmon, Hres, Hcalls.
  split; [reflexivity|]. split; [exact Hres|]. split; [exact Hcalls|].
  rewrite Hmon. split; reflexivity.
Defined.

(** C2 as stated fails on a stored payload that does not decode: the lookup
    is recorded as a hit, not as a miss, and the producer is then run. *)
Lemma Query_undecodable_payload_recorded_as_hit :
  let m := sample_manager
             {[ "user:2"%string := {| data := "garbage"; expireAt := 0 |} ]} in
  let q := Query (codec := decimal_codec) 0 sample_clock (Some m) "user:2"
             (counting_producer 9) [] 0%nat in
  (MemGet (with_cache (NewMemoryCacheAdapter 60)
             {[ "user:2"%string := {| data := "garbage"; expireAt := 0 |} ]})
          101 "user:2").1 = (Some "garbage"%string, None) /\
  json_Unmarshal (JSON := decimal_codec) "garbage" =
    inr "invalid character"%string /\
  q.1.1 = (9, None) /\
  q.2 = 1%nat /\
  HitCount <$> (metrics <$> (q.1.2 ≫= manager_monitor)) = Some 1 /\
  MissCount <$> (metrics <$> (q.1.2 ≫= manager_monitor)) = Some 0.
Proof. vm_compute. repeat split; reflexivity. Qed.

(** * Further properties of the in-process backend *)

Section SetGetRoundTrip.
Context {V : Type} {codec : JSON V}.

(** X1: a value stored by [Set] is served by [Get], and reported by
    [Exists], at every instant up to and including its expiry (at every
    instant when the effective TTL is not positive); the read leaves the
    backend as it is. *)
Theorem MemSet_then_MemGet m now0 key (v : V) ttl payload now :
  json_Marshal v = inl payload ->
  (if ttl =? 0 then defaultTTL m else ttl) <= 0 \/
    now <= now0 + (if ttl =? 0 then defaultTTL m else ttl) ->
  MemGet (MemSet m now0 key v ttl).2 now key =
    (Some payload, None, (MemSet m now0 key v ttl).2) /\
  MemExists (MemSet m now0 key v ttl).2 now key = (true, None).
Proof.
  intros Hp Hlive.
  pose proof (MemSet_lookup m now0 key v ttl payload Hp) as Hl.
  cbv zeta in Hl.
  assert (exists eff : Z,
             (eff <= 0 \/ now <= now0 + eff) /\
             cache (MemSet m now0 key v ttl).2 !! key =
               Some {| data := payload;
                       expireAt := if 0 <? eff then Add now0 eff
                                   else zeroTime |})
    as (eff & Heff & Hl').
  { destruct (ttl =? 0); eauto. }
  clear Hl Hlive. rename Hl' into Hl.
  set (entry := {| data := payload;
                   expireAt := if 0 <? eff then Add now0 eff else zeroTime |})
    in *.
  assert (expired entry now = false) as He.
  { destruct (expired entry now) eqn:E; [|reflexivity].
    apply expired_spec in E. unfold entry in E. simpl in E. revert E.
    destruct (Z.ltb_spec 0 eff); unfold Add, zeroTime;
      intros [? ?]; exfalso; lia. }
  split.
  - rewrite (MemGet_live _ _ _ _ Hl He). reflexivity.
  - unfold MemExists. rewrite Hl, He. reflexivity.
Qed.

(** X2: an entry stored with a strictly positive TTL is gone at any instant
    strictly after the set instant plus the TTL: [Get] answers absent and
    removes the entry, [Exists] answers false. *)
Theorem MemSet_positive_ttl_expires m now0 key (v : V) ttl payload now :
  0 < ttl ->
  0 <= now0 ->
  json_Marshal v = inl payload ->
  now0 + ttl < now ->
  (MemGet (MemSet m now0 key v ttl).2 now key).1 = (None, None) /\
  cache (MemGet (MemSet m now0 key v ttl).2 now key).2 !! key = None /\
  MemExists (MemSet m now0 key v ttl).2 now key = (false, None).
Proof.
  intros Hpos Hn0 Hp Hlate.
  pose proof (MemSet_lookup m now0 key v ttl payload Hp) as Hl.
  cbv zeta in Hl.
  assert ((ttl =? 0) = false) as E0 by (apply Z.eqb_neq; lia).
  assert ((0 <? ttl) = true) as E1 by (apply Z.ltb_lt; lia).
  rewrite E0, E1 in Hl.
  assert (expired {| data := payload; expireAt := Add now0 ttl |} now = true)
    as He by (apply expired_spec; simpl; unfold Add; lia).
  rewrite (MemGet_expired _ _ _ _ Hl He). simpl.
  split; [reflexivity|]. split; [apply lookup_delete_eq|].
  unfold MemExists. rewrite Hl, He. reflexivity.
Qed.

(** X3: [Set] changes nothing but the entry under its key: every other key
    keeps its entry and the default TTL stays; and when the value cannot be
    encoded the backend is left exactly as it was and the encoder's error is
    returned, wrapped. *)
Theorem MemSet_frame m now key (v : V) ttl other :
  other <> key ->
  cache (MemSet m now key v ttl).2 !! other = cache m !! other /\
  defaultTTL (MemSet m now key v ttl).2 = defaultTTL m /\
  match json_Marshal v with
  | inl _ => (MemSet m now key v ttl).1 = None
  | inr e =>
      MemSet m now key v ttl = (Some ("marshal value failed: " +:+ e), m)
  end.
Proof.
  intros Hne. unfold MemSet.
  destruct (json_Marshal v) as [payload|e]; simpl.
  - split; [|split; reflexivity]. apply lookup_insert_ne. congruence.
  - split; [reflexivity|]. split; reflexivity.
Qed.
End SetGetRoundTrip.

Lemma MemSet_then_MemGet_witness :
  let m1 := (MemSet (codec := quote_codec) (NewMemoryCacheAdapter 60)
               100 "k" "v" 0).2 in
  MemGet m1 160 "k" = (Some "'v'"%string, None, m1) /\
  MemExists m1 160 "k" = (true, None).
Proof.
  apply (MemSet_then_MemGet (codec := quote_codec)
           (NewMemoryCacheAdapter 60) 100 "k" "v" 0 "'v'" 160);
    [reflexivity | right; simpl; lia].
Defined.

Lemma MemSet_positive_ttl_expires_witness :
  let m1 := (MemSet (codec := quote_codec) (NewMemoryCacheAdapter 60)
               100 "k" "v" 30).2 in
  (MemGet m1 131 "k").1 = (None, None) /\
  cache (MemGet m1 131 "k").2 !! "k"%string = None /\
  MemExists m1 131 "k" = (false, None).
Proof.
  apply (MemSet_positive_ttl_expires (codec := quote_codec)
           (NewMemoryCacheAdapter 60) 100 "k" "v" 30 "'v'" 131);
    [lia | lia | reflexivity | lia].
Defined.

Lemma MemSet_frame_witness :
  let m := (MemSet (codec := quote_codec) (NewMemoryCacheAdapter 60)
              100 "a" "1" 0).2 in
  cache (MemSet (codec := failing_codec) m 200 "b" tt 0).2 !! "a"%string =
    cache m !! "a"%string /\
  MemSet (codec := failing_codec) m 200 "b" tt 0 =
    (Some "marshal value failed: unsupported type"%string, m).
Proof.
  intros m.
  destruct (MemSet_frame (codec := failing_codec) m 200 "b" tt 0 "a")
    as (Hother & _ & Hfail); [discriminate|].
  split; [exact Hother | exact Hfail].
Defined.

(** X4: [Exists] answers as [Get] does at the same instant: it reports the
    key exactly when [Get] serves a payload, and neither returns an
    error. *)
Theorem MemExists_agrees_with_MemGet m now key :
  ((MemExists m now key).1 = true <->
   exists payload, (MemGet m now key).1.1 = Some payload) /\
  (MemExists m now key).2 = None /\
  (MemGet m now key).1.2 = None.
Proof.
  unfold MemExists, MemGet, Get_read.
  destruct (cache m !! key) as [entry|]; simpl.
  - destruct (expired entry now); simpl.
    + split; [|split; reflexivity].
      split; [discriminate | intros [p Hp]; discriminate].
    + split; [|split; reflexivity]. split; [eauto | reflexivity].
  - split; [|split; reflexivity].
    split; [discriminate | intros [p Hp]; discriminate].
Qed.

Lemma MemDelete_lookup keys : forall m k,
  cache (MemDelete m keys).2 !! k =
    if bool_decide (k ∈ keys) then None else cache m !! k.
Proof.
  induction keys as [|a keys IH]; intros m k; simpl.
  - reflexivity.
  - rewrite IH. simpl. destruct (decide (k = a)) as [->|Hne].
    + rewrite lookup_delete_eq.
      rewrite (bool_decide_eq_true_2 (a ∈ a :: keys))
        by (apply elem_of_cons; now left).
      now destruct (bool_decide (a ∈ keys)).
    + rewrite lookup_delete_ne by congruence.
      rewrite (bool_decide_ext (k ∈ a :: keys) (k ∈ keys))
        by (rewrite elem_of_cons; tauto).
      reflexivity.
Qed.

Lemma MemDelete_defaultTTL keys : forall m,
  defaultTTL (MemDelete m keys).2 = defaultTTL m /\ (MemDelete m keys).1 = None.
Proof.
  induction keys as [|a keys IH]; intros m; simpl; [auto|].
  destruct (IH (with_cache m (delete a (cache m)))) as [-> ->]. auto.
Qed.

Lemma MemoryCacheAdapter_eq m1 m2 :
  cache m1 = cache m2 -> defaultTTL m1 = defaultTTL m2 -> m1 = m2.
Proof. destruct m1, m2. simpl. intros -> ->. reflexivity. Qed.

(** X5: [Delete] never fails, leaves each listed key absent (listed once or
    several times, stored or not) and every other key as it was, so that
    [Get] answers absent for a listed key and as before for any other;
    deleting again changes nothing. *)
Theorem MemDelete_removes_listed m keys :
  (MemDelete m keys).1 = None /\
  (forall k, cache (MemDelete m keys).2 !! k =
             if bool_decide (k ∈ keys) then None else cache m !! k) /\
  (forall k now,
      (MemGet (MemDelete m keys).2 now k).1 =
        if bool_decide (k ∈ keys) then (None, None)
        else (MemGet m now k).1) /\
  (MemDelete (MemDelete m keys).2 keys).2 = (MemDelete m keys).2.
Proof.
  split; [apply MemDelete_defaultTTL|].
  split; [apply MemDelete_lookup|]. split.
  - intros k now. unfold MemGet, Get_read. rewrite MemDelete_lookup.
    destruct (bool_decide (k ∈ keys)); [reflexivity|].
    destruct (cache m !! k) as [entry|]; [|reflexivity].
    destruct (expired entry now); reflexivity.
  - apply MemoryCacheAdapter_eq.
    + apply map_eq. intros k. rewrite !MemDelete_lookup.
      now destruct (bool_decide (k ∈ keys)).
    + now rewrite !(proj1 (MemDelete_defaultTTL _ _)).
Qed.

Lemma MemGet_keeps_observations_witness :
  let m := with_cache (NewMemoryCacheAdapter 60)
             {[ "k"%string := {| data := "1"; expireAt := 10 |} ]} in
  cache (MemGet m 20 "k").2 !! "k"%string = None /\
  (MemGet (MemGet m 20 "k").2 30 "k").1 = (MemGet m 30 "k").1.
Proof.
  intros m. split; [reflexivity|].
  apply (MemGet_keeps_observations m 20 "k" "k" 30). lia.
Defined.

Lemma HasPrefix_empty (s : string) : HasPrefix s "" = true.
Proof. now destruct s. Qed.

(** X7: the pattern ["*"] empties the backend and returns the number of
    entries it held (the empty pattern, by contrast, removes nothing). *)
Theorem MemDeletePattern_star_clears m order :
  range_order (cache m) order ->
  Z.of_nat (size (cache m)) < 2 ^ 63 ->
  MemDeletePattern m order "*" =
    (Z.of_nat (size (cache m)), None, with_cache m ∅) /\
  MemDeletePattern m order "" = (0, None, m).
Proof.
  intros Hord Hsz. split; [|reflexivity].
  destruct (MemDeletePattern_spec m order "*") as (Herr & _ & Hn & Httl & Hlk);
    [discriminate | exact Hord | exact Hsz |].
  change (TrimSuffix "*" "*") with ""%string in Hlk.
  destruct (MemDeletePattern m order "*") as [[n err] m'] eqn:E.
  simpl in *. subst err.
  assert (cache m' = ∅) as Hempty.
  { apply map_eq. intros k. rewrite Hlk, HasPrefix_empty, lookup_empty.
    reflexivity. }
  rewrite Hempty, map_size_empty in Hn.
  f_equal; [f_equal; lia|].
  apply MemoryCacheAdapter_eq; [exact Hempty | exact Httl].
Qed.

Lemma MemDeletePattern_star_clears_witness :
  let m := with_cache (NewMemoryCacheAdapter 60)
             (<[ "users:1"%string := {| data := "1"; expireAt := 0 |} ]>
             (<[ "orders:1"%string := {| data := "3"; expireAt := 0 |} ]> ∅)) in
  MemDeletePattern m ["orders:1"; "users:1"]%string "*" =
    (2, None, with_cache m ∅).
Proof.
  intros m.
  destruct (MemDeletePattern_star_clears m ["orders:1"; "users:1"]%string)
    as [Hstar _]; [vm_compute; reflexivity | vm_compute; reflexivity |].
  exact Hstar.
Defined.

(** ** [Stats] *)

Lemma Stats_expired_count now order (c : gmap string memoryEntry) :
  Z.of_nat (length order) < 2 ^ 63 ->
  Stats_expired now order c =
    Z.of_nat (length (filter
      (fun k => from_option (fun entry => expired entry now) false (c !! k)
                = true)
      order)).
Proof.
  unfold Stats_expired.
  assert (forall n, 0 <= n -> n + Z.of_nat (length order) < 2 ^ 63 ->
    foldl (fun n k =>
             match c !! k with
             | Some entry => if expired entry now then wrap64 (n + 1) else n
             | None => n
             end) n order =
    n + Z.of_nat (length (filter
      (fun k => from_option (fun entry => expired entry now) false (c !! k)
                = true)
      order))) as Hgen.
  { induction order as [|k order IH]; intros n Hn Hb; simpl in *; [lia|].
    destruct (c !! k) as [entry|] eqn:Hk.
    - destruct (expired entry now) eqn:He.
      + rewrite filter_cons_True by (rewrite Hk; exact He).
        rewrite (wrap64_id (n + 1)) by (unfold int64_range; lia).
        rewrite IH by lia. simpl. lia.
      + rewrite filter_cons_False by (rewrite Hk; simpl; congruence).
        apply IH; lia.
    - rewrite filter_cons_False by (rewrite Hk; simpl; congruence).
      apply IH; lia. }
  intros Hb. rewrite Hgen by lia. lia.
Qed.

(** X8: [Stats] never fails and, whatever the order of the iteration,
    reports the number of stored entries, the number of those past their
    expiry at the instant of the call, and the number of the others, which
    are the entries [Exists] reports; the last two add up to the first. *)
Theorem MemStats_counts m now order :
  range_order (cache m) order ->
  Z.of_nat (size (cache m)) < 2 ^ 63 ->
  let stats := (MemStats m now order).1 in
  let gone := size (filter (fun kv => expired kv.2 now = true) (cache m)) in
  let live :=
    size (filter (fun kv => (MemExists m now kv.1).1 = true) (cache m)) in
  (MemStats m now order).2 = None /\
  stats !! "total_items"%string = Some (Z.of_nat (size (cache m))) /\
  stats !! "expired_items"%string = Some (Z.of_nat gone) /\
  stats !! "active_items"%string = Some (Z.of_nat live) /\
  (gone + live = size (cache m))%nat.
Proof.
  intros Hord Hsz stats gone live.
  assert (Stats_expired now order (cache m) = Z.of_nat gone) as Hgone.
  { rewrite Stats_expired_count
      by (rewrite (range_order_length _ _ Hord); exact Hsz).
    f_equal. rewrite (size_filter_keys _ _ _ Hord). unfold gone. f_equal.
    apply map_filter_ext. intros k entry Hk. simpl. rewrite Hk.
    reflexivity. }
  assert (gone + live = size (cache m))%nat as Hsum.
  { unfold gone, live.
    pose proof (map_filter_union_complement
                  (fun kv : string * memoryEntry => expired kv.2 now = true)
                  (cache m)) as Hu.
    pose proof (map_disjoint_filter_complement
                  (fun kv : string * memoryEntry => expired kv.2 now = true)
                  (cache m)) as Hd.
    rewrite <- Hu at 3. rewrite (map_size_disj_union _ _ Hd). f_equal.
    f_equal. apply map_filter_ext. intros k entry Hk. simpl.
    unfold MemExists. rewrite Hk.
    destruct (expired entry now); simpl; split; congruence. }
  unfold stats, MemStats. simpl. rewrite Hgone.
  split; [reflexivity|]. split; [reflexivity|]. split; [reflexivity|].
  split; [|exact Hsum].
  rewrite lookup_insert_ne by discriminate.
  rewrite lookup_insert_ne by discriminate.
  rewrite lookup_insert_eq. f_equal.
  rewrite wrap64_id; unfold int64_range; lia.
Qed.

Lemma MemStats_counts_witness :
  let m := with_cache (NewMemoryCacheAdapter 60)
             (<[ "a"%string := {| data := "1"; expireAt := 10 |} ]>
             (<[ "b"%string := {| data := "2"; expireAt := 0 |} ]> ∅)) in
  let stats := (MemStats m 20 ["a"; "b"]%string).1 in
  stats !! "total_items"%string = Some 2 /\
  stats !! "expired_items"%string = Some 1 /\
  stats !! "active_items"%string = Some 1.
Proof.
  intros m stats.
  destruct (MemStats_counts m 20 ["a"; "b"]%string)
    as (_ & Htotal & Hgone & Hlive & _);
    [vm_compute; reflexivity | vm_compute; reflexivity |].
  split; [exact Htotal|]. split; [exact Hgone | exact Hlive].
Defined.

(** ** Sequences of counter operations *)

Lemma wrap64_add_l a b : wrap64 (wrap64 a + b) = wrap64 (a + b).
Proof.
  unfold wrap64. f_equal.
  replace ((a + 2 ^ 63) mod 2 ^ 64 - 2 ^ 63 + b + 2 ^ 63)
    with ((a + 2 ^ 63) mod 2 ^ 64 + b) by lia.
  rewrite Zplus_mod_idemp_l. f_equal. lia.
Qed.

Lemma expired_expireAt e1 e2 now :
  expireAt e1 = expireAt e2 -> expired e1 now = expired e2 now.
Proof. unfold expired. intros ->. reflexivity. Qed.

Section CounterRuns.
Context {int64_json : JSON Z}.
Variable enc : Z -> bytes.
Hypothesis Marshal_int64 : forall n, json_Marshal n = inl (enc n).

Lemma decoded_enc n : json_Unmarshal (enc n) = inl n -> decoded (enc n) = n.
Proof. intros Hn. unfold decoded. now rewrite Hn. Qed.

Lemma MemIncr_on_counter m now key c :
  cache m !! key = Some {| data := enc c; expireAt := zeroTime |} ->
  json_Unmarshal (enc c) = inl c ->
  MemIncr m now key =
    (wrap64 (c + 1), None,
     with_cache m (<[key := {| data := enc (wrap64 (c + 1));
                               expireAt := zeroTime |}]> (cache m))).
Proof.
  intros Hk Hc. unfold MemIncr.
  pose proof (addDelta_live m now key 1
                {| data := enc c; expireAt := zeroTime |}
                (enc (wrap64 (c + 1))) Hk) as Hlive.
  simpl in Hlive. rewrite (decoded_enc c Hc) in Hlive.
  apply Hlive; [apply expired_zero; reflexivity | apply Marshal_int64].
Qed.

Lemma MemIncr_run_from key times : forall m c,
  cache m !! key = Some {| data := enc c; expireAt := zeroTime |} ->
  0 <= c -> c + Z.of_nat (length times) < 2 ^ 63 ->
  (forall i, c <= i < c + Z.of_nat (length times) ->
             json_Unmarshal (enc i) = inl i) ->
  let run := foldl (fun st now => MemIncr st.2 now key) (c, None, m) times in
  run.1 = (c + Z.of_nat (length times), None) /\
  cache run.2 !! key =
    Some {| data := enc (c + Z.of_nat (length times));
            expireAt := zeroTime |}.
Proof.
  induction times as [|now times IH]; intros m c Hk Hc Hb Hdec.
  - simpl. rewrite Z.add_0_r. auto.
  - simpl foldl. simpl length in *.
    rewrite (MemIncr_on_counter m now key c Hk) by (apply Hdec; lia).
    rewrite (wrap64_id (c + 1)) by (unfold int64_range; lia).
    destruct (IH (with_cache m
                    (<[key := {| data := enc (c + 1); expireAt := zeroTime |}]>
                       (cache m))) (c + 1)) as [H1 H2];
      [simpl; apply lookup_insert_eq | lia | lia
       | intros i Hi; apply Hdec; lia |].
    cbv zeta in H1, H2 |- *.
    replace (c + Z.of_nat (S (length times)))
      with (c + 1 + Z.of_nat (length times)) by lia.
    auto.
Qed.

(** X9: on a key that is not stored, a run of [Incr] calls counts them:
    the last call returns their number, and the counter is stored with no
    expiry.  [enc] is the encoder of [int64]; the decoder has to invert it
    on the values the counter takes on the way. *)
Theorem MemIncr_counts_calls m key now times :
  cache m !! key = None ->
  Z.of_nat (S (length times)) < 2 ^ 63 ->
  (forall i, 0 < i < Z.of_nat (S (length times)) ->
             json_Unmarshal (enc i) = inl i) ->
  let run :=
    foldl (fun st now => MemIncr st.2 now key) (0, None, m) (now :: times) in
  run.1 = (Z.of_nat (S (length times)), None) /\
  cache run.2 !! key =
    Some {| data := enc (Z.of_nat (S (length times)));
            expireAt := zeroTime |}.
Proof.
  intros Hk Hb Hdec. simpl foldl.
  assert (MemIncr m now key =
            (1, None,
             with_cache m (<[key := {| data := enc 1; expireAt := zeroTime |}]>
                             (cache m)))) as ->.
  { unfold MemIncr. apply addDelta_fresh;
      [left; exact Hk | unfold int64_range; lia | apply Marshal_int64]. }
  destruct (MemIncr_run_from key times
              (with_cache m
                 (<[key := {| data := enc 1; expireAt := zeroTime |}]>
                    (cache m))) 1) as [H1 H2];
    [simpl; apply lookup_insert_eq | lia | lia
     | intros i Hi; apply Hdec; lia |].
  cbv zeta in H1, H2.
  replace (Z.of_nat (S (length times))) with (1 + Z.of_nat (length times))
    by lia.
  auto.
Qed.

(** X10: [Decr] undoes [Incr] on a counter that is live at both calls: it
    returns the value the counter had, also when [Incr] wrapped around, and
    the entry keeps its expiry. *)
Theorem MemDecr_undoes_MemIncr m key entry n now1 now2 :
  cache m !! key = Some entry ->
  json_Unmarshal (data entry) = inl n ->
  int64_range n ->
  json_Unmarshal (enc (wrap64 (n + 1))) = inl (wrap64 (n + 1)) ->
  expired entry now1 = false ->
  expired entry now2 = false ->
  (MemIncr m now1 key).1 = (wrap64 (n + 1), None) /\
  (MemDecr (MemIncr m now1 key).2 now2 key).1 = (n, None) /\
  cache (MemDecr (MemIncr m now1 key).2 now2 key).2 !! key =
    Some {| data := enc n; expireAt := expireAt entry |}.
Proof.
  intros Hk Hn Hr Hdec He1 He2.
  assert (decoded (data entry) = n) as Hd by (unfold decoded; now rewrite Hn).
  unfold MemIncr.
  rewrite (addDelta_live m now1 key 1 entry _ Hk He1 (Marshal_int64 _)).
  rewrite Hd. simpl. split; [reflexivity|].
  set (m1 := with_cache m _).
  set (e1 := {| data := enc (wrap64 (n + 1)); expireAt := expireAt entry |}).
  assert (cache m1 !! key = Some e1) as Hk1
    by (unfold m1; simpl; apply lookup_insert_eq).
  assert (expired e1 now2 = false) as He
    by (rewrite <- He2; now apply expired_expireAt).
  unfold MemDecr.
  rewrite (addDelta_live m1 now2 key (-1) e1 _ Hk1 He (Marshal_int64 _)).
  unfold e1 at 1 2 3. simpl.
  rewrite (decoded_enc _ Hdec).
  rewrite wrap64_add_l.
  replace (n + 1 + -1) with n by lia.
  rewrite (wrap64_id n Hr).
  split; [reflexivity|]. apply lookup_insert_eq.
Qed.
End CounterRuns.

Lemma MemIncr_counts_calls_witness :
  let run :=
    foldl (fun st now => MemIncr (int64_json := decimal_codec) st.2 now "n")
          (0, None, NewMemoryCacheAdapter 60) [10; 20; 30] in
  run.1 = (3, None) /\
  cache run.2 !! "n"%string = Some {| data := "3"; expireAt := zeroTime |}.
Proof.
  apply (MemIncr_counts_calls (int64_json := decimal_codec) pretty
           (fun n => eq_refl) (NewMemoryCacheAdapter 60) "n" 10 [20; 30]).
  - reflexivity.
  - simpl. lia.
  - intros i Hi. simpl in Hi.
    assert (i = 1 \/ i = 2) as [-> | ->] by lia; reflexivity.
Defined.

Lemma MemDecr_undoes_MemIncr_witness :
  let m := with_cache (NewMemoryCacheAdapter 60)
             {[ "n"%string := {| data := "9223372036854775807";
                                 expireAt := 500 |} ]} in
  (MemIncr (int64_json := decimal_codec) m 100 "n").1 =
    (-9223372036854775808, None) /\
  (MemDecr (int64_json := decimal_codec)
     (MemIncr (int64_json := decimal_codec) m 100 "n").2 200 "n").1 =
    (9223372036854775807, None).
Proof.
  intros m.
  destruct (MemDecr_undoes_MemIncr (int64_json := decimal_codec) pretty
              (fun n => eq_refl) m "n"
              {| data := "9223372036854775807"; expireAt := 500 |}
              9223372036854775807 100 200)
    as (Hincr & Hdecr & _);
    [reflexivity | reflexivity | unfold int64_range; lia | reflexivity
     | reflexivity | reflexivity |].
  split; [exact Hincr | exact Hdecr].
Defined.

(** An entry stored with effective TTL [eff] at [now0] is not expired at
    [now] when the TTL is not positive or [now] is not past the expiry. *)
Lemma stored_entry_live now0 eff now payload :
  eff <= 0 \/ now <= now0 + eff ->
  expired {| data := payload;
             expireAt := if 0 <? eff then Add now0 eff else zeroTime |} now
    = false.
Proof.
  intros Hlive.
  destruct (expired _ now) eqn:E; [|reflexivity].
  apply expired_spec in E. simpl in E. revert E.
  destruct (Z.ltb_spec 0 eff); unfold Add, zeroTime;
    intros [? ?]; exfalso; lia.
Qed.

(** * Further properties of the pagination codec *)

Lemma prefix_app (p s : string) : String.prefix p (p +:+ s) = true.
Proof.
  induction p as [|a p IH]; [now destruct s|].
  rewrite string_app_cons. simpl.
  destruct (Ascii.ascii_dec a a) as [_|Hne]; [exact IH | contradiction].
Qed.

Lemma Join_cons_cons e e' rest sep :
  Join (e :: e' :: rest) sep = e +:+ sep +:+ Join (e' :: rest) sep.
Proof. reflexivity. Qed.

Section CacheKeyPrefix.
Context {V : Type} {codec : JSON V}.

(** The key is the resource, a colon, and a non-empty rest. *)
Lemma GenerateCacheKey_shape order resource (filters : gmap string V) params :
  exists rest,
    GenerateCacheKey order resource filters params =
      resource +:+ ":" +:+ rest.
Proof.
  unfold GenerateCacheKey.
  set (tail := ["page"%string;
                Sprintf_d (Page (NormalizePaginationParams params));
                "size"%string;
                Sprintf_d (PageSize (NormalizePaginationParams params))]).
  destruct (0 <? size filters)%nat.
  - rewrite foldl_append_pairs, <- app_assoc. simpl.
    destruct (flat_map _ _ ++ tail) as [|e' rest] eqn:E.
    + apply app_eq_nil in E as [_ E]. discriminate E.
    + eexists. apply Join_cons_cons.
  - simpl. eexists. reflexivity.
Qed.

(** X11: every key derived for a resource starts with the resource and a
    colon, so [InvalidateCacheOnUpdate] of the resource removes it from the
    in-process backend, whatever the filters, the page and the page size:
    a later [Get] of the key answers absent. *)
Theorem InvalidateCacheOnUpdate_covers_keys (m : MemoryCacheAdapter)
    scan order resource (filters : gmap string V) params ttl mon now :
  range_order (cache m) scan ->
  Z.of_nat (size (cache m)) < 2 ^ 63 ->
  let key := GenerateCacheKey order resource filters params in
  let inv :=
    InvalidateCacheOnUpdate
      (Some {| manager_adapter := Some m; manager_defaultTTL := ttl;
               manager_monitor := mon |}) scan resource in
  HasPrefix key (resource +:+ ":") = true /\
  inv.1.2 = None /\
  exists m',
    inv.2 = Some {| manager_adapter := Some m'; manager_defaultTTL := ttl;
                    manager_monitor := mon |} /\
    cache m' !! key = None /\
    MemGet m' now key = (None, None, m').
Proof.
  intros Hscan Hsz key inv.
  assert (HasPrefix key (resource +:+ ":") = true) as Hpre.
  { unfold key.
    destruct (GenerateCacheKey_shape order resource filters params)
      as [rest ->].
    unfold HasPrefix.
    change (resource +:+ ":" +:+ rest) with (resource +:+ (":" +:+ rest)).
    replace (resource +:+ (":" +:+ rest))
      with ((resource +:+ ":") +:+ rest); [apply prefix_app|].
    clear. induction resource as [|a r IH]; [reflexivity|].
    rewrite !string_app_cons. now f_equal. }
  split; [exact Hpre|].
  assert (resource +:+ ":" <> ""%string) as Hne.
  { intros E. apply (f_equal String.length) in E.
    rewrite length_string_app in E. simpl in E. lia. }
  pose proof (MemDeletePattern_spec m scan (resource +:+ ":") Hne Hscan Hsz)
    as Hspec.
  cbv zeta in Hspec. rewrite TrimSuffix_colon in Hspec.
  destruct Hspec as (Herr & _ & _ & _ & Hlk).
  unfold inv, InvalidateCacheOnUpdate, ManagerDeletePattern. simpl.
  destruct (MemDeletePattern m scan (resource +:+ ":")) as [[n err] m'] eqn:E.
  simpl in *. split; [exact Herr|].
  exists m'. split; [reflexivity|].
  assert (cache m' !! key = None) as Hgone by (now rewrite Hlk, Hpre).
  split; [exact Hgone | now apply MemGet_absent].
Qed.
End CacheKeyPrefix.

Lemma InvalidateCacheOnUpdate_covers_keys_witness :
  let key :=
    GenerateCacheKey (codec := quote_codec) ["status"%string] "users"
      {[ "status"%string := "active"%string ]}
      (Some {| Page := 2; PageSize := 10; UseCache := true |}) in
  let m := with_cache (NewMemoryCacheAdapter 60)
             (<[ key := {| data := "1"; expireAt := 0 |} ]>
             (<[ "orders:page:1:size:20"%string :=
                   {| data := "3"; expireAt := 0 |} ]> ∅)) in
  let inv := InvalidateCacheOnUpdate (Some (sample_manager (cache m)))
               ["orders:page:1:size:20"; key]%string "users" in
  key = "users:status:'active':page:2:size:10"%string /\
  inv.1 = (1, None) /\
  exists m', inv.2 ≫= manager_adapter = Some m' /\ cache m' !! key = None.
Proof.
  intros key m inv.
  destruct (InvalidateCacheOnUpdate_covers_keys (codec := quote_codec) m
              ["orders:page:1:size:20"; key]%string ["status"%string] "users"
              {[ "status"%string := "active"%string ]}
              (Some {| Page := 2; PageSize := 10; UseCache := true |})
              60 (Some (NewMonitor 0)) 0)
    as (_ & _ & m' & Hinv & Hgone & _);
    [vm_compute; reflexivity | vm_compute; reflexivity |].
  split; [reflexivity|]. split; [reflexivity|].
  exists m'. split; [|exact Hgone].
  change inv with
    (InvalidateCacheOnUpdate
       (Some {| manager_adapter := Some m; manager_defaultTTL := 60;
                manager_monitor := Some (NewMonitor 0) |})
       ["orders:page:1:size:20"; key]%string "users").
  rewrite Hinv. reflexivity.
Defined.

Lemma NormalizePaginationParams_PageSize params :
  1 <= PageSize (NormalizePaginationParams params) <= MaxPageSize.
Proof.
  unfold NormalizePaginationParams, DefaultPageSize, MaxPageSize.
  destruct params as [[page size use]|]; simpl; [|lia].
  destruct (Z.leb_spec size 0); simpl.
  - lia.
  - destruct (Z.ltb_spec 200 size); lia.
Qed.

Section TotalPages.
Variable sha256_Sum256 : bytes -> bytes.
Context {T : Type} {codec : JSON (list T)}.

(** X12: for a total that is not negative, the page count of the envelope
    is the total divided by the normalised page size, rounded up: the pages
    before the last do not hold the total, all the pages do; and the
    envelope carries the normalised page and page size. *)
Theorem BuildPaginationResponse_TotalPages (data : list T) total params key
    fromCache :
  0 <= total < 2 ^ 63 - MaxPageSize ->
  let r :=
    BuildPaginationResponse sha256_Sum256 data total params key fromCache in
  resp_Page r = Page (NormalizePaginationParams params) /\
  resp_PageSize r = PageSize (NormalizePaginationParams params) /\
  0 <= resp_TotalPages r /\
  resp_PageSize r * (resp_TotalPages r - 1) < total
    <= resp_PageSize r * resp_TotalPages r.
Proof.
  intros Ht r.
  pose proof (NormalizePaginationParams_PageSize params) as Hsize.
  unfold MaxPageSize in *.
  unfold r, BuildPaginationResponse. simpl.
  set (ps := PageSize (NormalizePaginationParams params)) in *.
  split; [reflexivity|]. split; [reflexivity|].
  rewrite (wrap64_id (total + ps)) by (unfold int64_range; lia).
  rewrite (wrap64_id (total + ps - 1)) by (unfold int64_range; lia).
  rewrite Z.quot_div_nonneg by lia.
  pose proof (Z.div_mod (total + ps - 1) ps ltac:(lia)) as Hdm.
  pose proof (Z.mod_pos_bound (total + ps - 1) ps ltac:(lia)) as Hmod.
  pose proof (Z.div_pos (total + ps - 1) ps ltac:(lia) ltac:(lia)) as Hq.
  split; [exact Hq|]. nia.
Qed.
End TotalPages.

Lemma BuildPaginationResponse_TotalPages_witness :
  let codec : JSON (list Z) :=
    {| json_Marshal := fun _ => inl ""%string;
       json_Unmarshal := fun _ => inl [] |} in
  let r :=
    BuildPaginationResponse (fun b => b) [1; 2] 3
      (Some {| Page := 1; PageSize := 2; UseCache := true |}) "items" false in
  resp_PageSize r = 2 /\ resp_TotalPages r = 2.
Proof.
  intros codec r.
  destruct (BuildPaginationResponse_TotalPages (codec := codec) (fun b => b)
              [1; 2] 3
              (Some {| Page := 1; PageSize := 2; UseCache := true |})
              "items" false) as (_ & Hsize & _ & _);
    [unfold MaxPageSize; lia|].
  split; [exact Hsize | reflexivity].
Defined.

(** * The ticket *)

Lemma length_hex_EncodeToString (src : bytes) :
  String.length (hex_EncodeToString src) = (2 * String.length src)%nat.
Proof. induction src as [|c src IH]; simpl; [reflexivity | lia]. Qed.

Lemma length_substring_prefix (n : nat) (s : string) :
  (n <= String.length s)%nat -> String.length (String.substring 0 n s) = n.
Proof.
  revert n. induction s as [|c s IH]; intros [|n] Hn; simpl in *;
    try reflexivity; try lia.
  f_equal. apply IH. lia.
Qed.

(** X13: a ticket made by [GenerateTicket] carries a token of 16
    characters, and [Validate] accepts it up to and including its expiry
    and rejects it as expired at any later instant.  The digest is a
    parameter; a SHA-256 digest has 32 bytes. *)
Theorem GenerateTicket_validates (sha256_Sum256 : bytes -> bytes) now0 userID
    ttl now :
  (forall src, String.length (sha256_Sum256 src) = 32%nat) ->
  let t := GenerateTicket sha256_Sum256 now0 userID ttl in
  String.length (Token t) = 16%nat /\
  UserID t = userID /\
  ExpiresAt t = now0 + ttl /\
  Validate (Some t) now =
    if now0 + ttl <? now then Some ErrTicketExpired else None.
Proof.
  intros Hsha t.
  assert (String.length (Token t) = 16%nat) as Hlen.
  { unfold t, GenerateTicket. simpl. apply length_substring_prefix.
    rewrite length_hex_EncodeToString, Hsha. lia. }
  split; [exact Hlen|]. split; [reflexivity|]. split; [reflexivity|].
  unfold Validate.
  destruct (String.eqb_spec (Token t) "") as [E|_].
  - rewrite E in Hlen. discriminate Hlen.
  - reflexivity.
Qed.

Lemma GenerateTicket_validates_witness :
  let sha := fun _ : bytes => "0123456789abcdef0123456789abcdef"%string in
  let t := GenerateTicket sha 1000 "user123" 3600 in
  Token t = "3031323334353637"%string /\
  Validate (Some t) 4600 = None /\
  Validate (Some t) 4601 = Some ErrTicketExpired.
Proof.
  intros sha t. split; [reflexivity|].
  pose proof (GenerateTicket_validates sha 1000 "user123" 3600 4600
                (fun _ => eq_refl)) as (_ & _ & _ & Hin).
  pose proof (GenerateTicket_validates sha 1000 "user123" 3600 4601
                (fun _ => eq_refl)) as (_ & _ & _ & Hout).
  split; [exact Hin | exact Hout].
Defined.

(** * Further properties of the monitor *)

Lemma track_window m now d :
  Z.of_nat (length (tracker m)) <= maxTrack m ->
  maxTrack (track m now d) = maxTrack m /\
  LastUpdate (metrics (track m now d)) = now /\
  EvictionCount (metrics (track m now d)) = EvictionCount (metrics m) /\
  Z.of_nat (length (tracker (track m now d))) =
    Z.min (Z.of_nat (length (tracker m)) + 1) (maxTrack m).
Proof.
  intros Hwin. unfold track. simpl.
  split; [reflexivity|]. split; [reflexivity|]. split; [reflexivity|].
  rewrite length_app. simpl.
  destruct (Z.ltb_spec (maxTrack m) (Z.of_nat (length (tracker m) + 1))).
  - rewrite length_drop, length_app. simpl. lia.
  - rewrite length_app. simpl. lia.
Qed.

Lemma observe_step m o :
  Z.of_nat (length (tracker m)) <= maxTrack m ->
  HitCount (metrics (observe m o)) =
    (if o.1.1 then wrap64 (HitCount (metrics m) + 1)
     else HitCount (metrics m)) /\
  MissCount (metrics (observe m o)) =
    (if o.1.1 then MissCount (metrics m)
     else wrap64 (MissCount (metrics m) + 1)) /\
  maxTrack (observe m o) = maxTrack m /\
  EvictionCount (metrics (observe m o)) = EvictionCount (metrics m) /\
  LastUpdate (metrics (observe m o)) = o.1.2 /\
  Z.of_nat (length (tracker (observe m o))) =
    Z.min (Z.of_nat (length (tracker m)) + 1) (maxTrack m).
Proof.
  intros Hwin. destruct o as [[hit now] d]. unfold observe. simpl.
  destruct hit; unfold RecordHit, RecordMiss;
    match goal with
    | |- context [track ?m' now d] =>
        destruct (track_window m' now d Hwin) as (H1 & H2 & H3 & H4)
    end;
    simpl in *; repeat split; auto.
Qed.

(** X14: a run of observations adds the number of hits to the hit counter
    and the number of misses to the miss counter, leaves the eviction
    counter alone, and keeps at most [maxTrack] latencies: the window holds
    the earlier samples and the new ones up to that bound. *)
Theorem Monitor_counts_observations (obs : list (bool * Time * Duration)) m :
  0 <= HitCount (metrics m) ->
  0 <= MissCount (metrics m) ->
  HitCount (metrics m) + Z.of_nat (length obs) < 2 ^ 63 ->
  MissCount (metrics m) + Z.of_nat (length obs) < 2 ^ 63 ->
  Z.of_nat (length (tracker m)) <= maxTrack m ->
  let m' := foldl observe m obs in
  HitCount (metrics m') =
    HitCount (metrics m)
      + Z.of_nat (length (filter (fun o => o.1.1 = true) obs)) /\
  MissCount (metrics m') =
    MissCount (metrics m)
      + Z.of_nat (length (filter (fun o => o.1.1 = false) obs)) /\
  EvictionCount (metrics m') = EvictionCount (metrics m) /\
  maxTrack m' = maxTrack m /\
  Z.of_nat (length (tracker m')) =
    Z.min (Z.of_nat (length (tracker m) + length obs)) (maxTrack m).
Proof.
  revert m. induction obs as [|o obs IH]; intros m Hh Hm Hhb Hmb Hwin; simpl.
  - rewrite !Z.add_0_r, Nat.add_0_r. repeat split; lia.
  - simpl in Hhb, Hmb.
    destruct (observe_step m o Hwin) as (H1 & H2 & H3 & H4 & _ & H6).
    assert (HitCount (metrics (observe m o)) =
              HitCount (metrics m) + (if o.1.1 then 1 else 0)) as H1'.
    { rewrite H1. destruct o.1.1; [|lia].
      apply wrap64_id. unfold int64_range. lia. }
    assert (MissCount (metrics (observe m o)) =
              MissCount (metrics m) + (if o.1.1 then 0 else 1)) as H2'.
    { rewrite H2. destruct o.1.1; [lia|].
      apply wrap64_id. unfold int64_range. lia. }
    destruct (IH (observe m o)) as (I1 & I2 & I3 & I4 & I5).
    + rewrite H1'. destruct o.1.1; lia.
    + rewrite H2'. destruct o.1.1; lia.
    + rewrite H1'. destruct o.1.1; lia.
    + rewrite H2'. destruct o.1.1; lia.
    + rewrite H3, H6. lia.
    + cbv zeta in *. rewrite I1, I2, I3, I4, I5, H1', H2', H3, H4.
      destruct (o.1.1) eqn:E.
      * rewrite filter_cons_True by exact E.
        rewrite filter_cons_False by congruence. simpl.
        repeat split; lia.
      * rewrite filter_cons_False by congruence.
        rewrite filter_cons_True by exact E. simpl.
        repeat split; lia.
Qed.

Lemma Monitor_counts_observations_witness :
  let m := foldl observe (NewMonitor 0)
             [(true, 1, 10); (false, 2, 20); (true, 3, 15)] in
  HitCount (metrics m) = 2 /\ MissCount (metrics m) = 1 /\
  Z.of_nat (length (tracker m)) = 3.
Proof.
  destruct (Monitor_counts_observations
              [(true, 1, 10); (false, 2, 20); (true, 3, 15)] (NewMonitor 0))
    as (Hh & Hm & _ & _ & Hw); simpl; try lia.
  cbv zeta. split; [exact Hh|]. split; [exact Hm | exact Hw].
Defined.

(** * The refresh strategy *)

(** X15: the refresh interval of a strategy is strictly positive: half the
    TTL when the TTL is at least 2ns, one minute otherwise; and after
    [MarkUpdated] at [t], [ShouldRefresh] is false up to and including
    [t] plus the interval and true at every later instant. *)
Theorem SmartCacheStrategy_refresh now0 ttl t now :
  let s := MarkUpdated (NewSmartCacheStrategy now0 ttl) t in
  0 < updateInterval s /\
  ((2 <= ttl /\ updateInterval s = ttl / 2) \/
   (ttl < 2 /\ updateInterval s = Minute)) /\
  ShouldRefresh s now = (t + updateInterval s <? now) /\
  ShouldRefresh s t = false.
Proof.
  unfold MarkUpdated, NewSmartCacheStrategy, ShouldRefresh, Since, Minute.
  simpl.
  assert (2 <= ttl -> Z.quot ttl 2 = ttl / 2 /\ 0 < ttl / 2) as Hbig.
  { intros Hb. rewrite Z.quot_div_nonneg by lia. split; [reflexivity|].
    apply Z.div_str_pos. lia. }
  assert (ttl < 2 -> Z.quot ttl 2 <= 0) as Hsmall.
  { intros Hs. destruct (Z.le_gt_cases 0 ttl).
    - rewrite Z.quot_div_nonneg by lia.
      rewrite Z.div_small by lia. lia.
    - apply Z.quot_le_upper_bound; lia. }
  destruct (Z.leb_spec (Z.quot ttl 2) 0) as [Hle|Hgt].
  - assert (ttl < 2) as Hs.
    { destruct (Z.lt_ge_cases ttl 2); [assumption|].
      destruct Hbig; lia. }
    split; [lia|]. split; [right; split; [exact Hs | reflexivity]|].
    split.
    + destruct (Z.ltb_spec (60 * 1000000000) (now - t)),
               (Z.ltb_spec (t + 60 * 1000000000) now); try reflexivity; lia.
    + apply Z.ltb_ge. lia.
  - assert (2 <= ttl) as Hb.
    { destruct (Z.lt_ge_cases ttl 2) as [Hs|]; [|assumption].
      specialize (Hsmall Hs). lia. }
    destruct (Hbig Hb) as [Heq Hpos].
    split; [lia|]. split; [left; split; [exact Hb | exact Heq]|].
    split.
    + destruct (Z.ltb_spec (Z.quot ttl 2) (now - t)),
               (Z.ltb_spec (t + Z.quot ttl 2) now); try reflexivity; lia.
    + apply Z.ltb_ge. lia.
Qed.

(** * Further properties of the manager and the executor *)

Section ManagerRoundTrip.
Context {T : Type} {codec : JSON T}.

End ManagerRoundTrip.


Lemma MemGet_no_error m now key : (MemGet m now key).1.2 = None.
Proof.
  unfold MemGet. destruct (Get_read m key) as [e|]; [|reflexivity].
  destruct (expired e now); reflexivity.
Qed.

Lemma MemGet_defaultTTL m now key :
  defaultTTL (MemGet m now key).2 = defaultTTL m.
Proof.
  unfold MemGet. destruct (Get_read m key) as [e|]; [|reflexivity].
  destruct (expired e now); reflexivity.
Qed.

Section QueryRoundTrip.
Context {T : Type} {codec : JSON T} {W : Type}.
Variable zero : T.

(** X17: over the in-process backend, with caching on and no ticket, a call
    that misses and whose producer succeeds stores the value, and a second
    call for the same key made before the entry expires returns the same
    value without running the producer; the monitor has then recorded one
    miss followed by one hit.  The codec has to decode what it encoded.
    The TTL of the entry is the option's if it is not zero, otherwise the
    manager's default, otherwise the backend's. *)
Theorem Query_second_call_hits (a : MemoryCacheAdapter) mdefault mon clk1 clk2
    key (queryFunc : W -> (T * option error) * W) opts w w1 (v : T) payload :
  let m := {| manager_adapter := Some a; manager_defaultTTL := mdefault;
              manager_monitor := Some mon |} in
  let options := build_options m opts in
  let asked := if TTL options =? 0 then mdefault else TTL options in
  let eff := if asked =? 0 then defaultTTL a else asked in
  Ticket options = None ->
  opt_UseCache options = true ->
  (MemGet a (now_get clk1) key).1.1 = None ->
  queryFunc w = ((v, None), w1) ->
  json_Marshal v = inl payload ->
  json_Unmarshal payload = inl v ->
  eff <= 0 \/ now_get clk2 <= now_set clk1 + eff ->
  let q1 := Query zero clk1 (Some m) key queryFunc opts w in
  let q2 := Query zero clk2 q1.1.2 key queryFunc opts w1 in
  q1.1.1 = (v, None) /\ q1.2 = w1 /\
  q2.1.1 = (v, None) /\ q2.2 = w1 /\
  q2.1.2 ≫= manager_monitor =
    Some (RecordHit
            (RecordMiss mon (now_track clk1)
               (Since (now_since clk1) (now_start clk1)))
            (now_track clk2) (Since (now_since clk2) (now_start clk2))).
Proof.
  intros m options asked eff Htk Hon Hmiss Hprod Hp Hu Hlive q1 q2.
  pose proof (MemGet_no_error a (now_get clk1) key) as Hnoerr.
  pose proof (MemGet_defaultTTL a (now_get clk1) key) as Hdef.
  destruct (MemGet a (now_get clk1) key) as [[d e] a1] eqn:Hget.
  simpl in Hmiss, Hnoerr, Hdef. subst d e.
  pose proof (MemSet_stores a1 (now_set clk1) key v asked payload Hp) as Hset.
  cbv zeta in Hset. rewrite Hdef in Hset. fold eff in Hset.
  assert (q1 = ((v, None),
                Some {| manager_adapter :=
                          Some (with_cache a1
                                  (<[key := {| data := payload;
                                     expireAt := if 0 <? eff
                                                 then Add (now_set clk1) eff
                                                 else zeroTime |}]>
                                     (cache a1)));
                        manager_defaultTTL := mdefault;
                        manager_monitor :=
                          Some (RecordMiss mon (now_track clk1)
                                  (Since (now_since clk1) (now_start clk1))) |},
                w1)) as Hq1.
  { unfold q1, Query. simpl manager_adapter. cbv iota.
    fold options. rewrite Htk. unfold Query_lookup. rewrite Hon.
    change (adapter_Get a (now_get clk1) key)
      with (MemGet a (now_get clk1) key).
    rewrite Hget. simpl.
    unfold Query_produce. rewrite Hprod, Hon. simpl.
    fold asked.
    change (adapter_Set a1 (now_set clk1) key v asked)
      with (MemSet a1 (now_set clk1) key v asked).
    rewrite Hset. reflexivity. }
  rewrite Hq1. simpl. split; [reflexivity|]. split; [reflexivity|].
  unfold q2. rewrite Hq1. simpl.
  unfold Query. simpl manager_adapter. cbv iota.
  change (build_options _ opts) with options.
  rewrite Htk. unfold Query_lookup. rewrite Hon.
  match goal with
  | |- context [adapter_Get ?a2 (now_get clk2) key] =>
      change (adapter_Get a2 (now_get clk2) key)
        with (MemGet a2 (now_get clk2) key);
      rewrite (MemGet_live a2 (now_get clk2) key
                 {| data := payload;
                    expireAt := if 0 <? eff then Add (now_set clk1) eff
                                else zeroTime |})
  end.
  - simpl. rewrite Hu. simpl. auto.
  - simpl. apply lookup_insert_eq.
  - apply stored_entry_live. exact Hlive.
Qed.
End QueryRoundTrip.

Lemma Query_second_call_hits_witness :
  let m := sample_manager ∅ in
  let clk2 := {| now_validate := 150; now_start := 150; now_get := 151;
                 now_since := 152; now_track := 153; now_set := 154 |} in
  let q1 := Query (codec := decimal_codec) 0 sample_clock (Some m) "user:2"
              (counting_producer 7) [] 0%nat in
  let q2 := Query (codec := decimal_codec) 0 clk2 q1.1.2 "user:2"
              (counting_producer 7) [] 1%nat in
  q1.1.1 = (7, None) /\ q1.2 = 1%nat /\
  q2.1.1 = (7, None) /\ q2.2 = 1%nat /\
  HitCount <$> (metrics <$> (q2.1.2 ≫= manager_monitor)) = Some 1 /\
  MissCount <$> (metrics <$> (q2.1.2 ≫= manager_monitor)) = Some 1.
Proof.
  intros m clk2 q1 q2.
  destruct (Query_second_call_hits (codec := decimal_codec) 0
              (NewMemoryCacheAdapter 60) 60 (NewMonitor 0) sample_clock clk2
              "user:2" (counting_producer 7) [] 0%nat 1%nat 7 "7")
    as (H1 & H2 & H3 & H4 & _);
    [reflexivity | reflexivity | reflexivity | reflexivity | reflexivity
     | reflexivity | right; simpl; lia |].
  split; [exact H1|]. split; [exact H2|]. split; [exact H3|].
  split; [exact H4|]. split; reflexivity.
Defined.

Section QueryGuards.
Context {A : Type} {backend : Adapter A}.
Context {T : Type} {codec : JSON T}.
Context {W : Type}.
Variable zero : T.

Lemma build_options_app (m : Manager A) opts1 opts2 :
  build_options m (opts1 ++ opts2) =
    foldl (fun o opt => opt o) (build_options m opts1) opts2.
Proof. unfold build_options. apply foldl_app. Qed.

(** X18: a ticket that does not validate stops [Query] before any work:
    the error of [Validate], which is [ErrInvalidTicket] for an empty token
    and [ErrTicketExpired] past the expiry, is returned with the zero value,
    and the backend, the monitor and the producer's state are untouched.
    The ticket is the one passed last with [WithTicket]. *)
Theorem Query_rejects_invalid_ticket clk (m : Manager A) (a : A) key
    (queryFunc : W -> (T * option error) * W) opts (w : W) t err :
  manager_adapter m = Some a ->
  Validate (Some t) (now_validate clk) = Some err ->
  Query zero clk (Some m) key queryFunc (opts ++ [WithTicket (Some t)]) w =
    ((zero, Some err), Some m, w) /\
  ((Token t = ""%string /\ err = ErrInvalidTicket) \/
   (ExpiresAt t < now_validate clk /\ err = ErrTicketExpired)).
Proof.
  intros Ha Hv. split.
  - assert (Ticket (build_options m (opts ++ [WithTicket (Some t)])) = Some t)
      as Hticket by (rewrite build_options_app; reflexivity).
    unfold Query. rewrite Ha. cbv zeta. rewrite Hticket, Hv. reflexivity.
  - unfold Validate in Hv.
    destruct (String.eqb_spec (Token t) "") as [E|_].
    + left. split; [exact E | congruence].
    + unfold After in Hv.
      destruct (Z.ltb_spec (ExpiresAt t) (now_validate clk));
        [right; split; [assumption | congruence] | discriminate].
Qed.

(** X19: with [WithNoCache] as the last option and no invalid ticket,
    [Query] is the producer alone: it runs once, its value or its error is
    the result, and the manager (backend and monitor) is left as it was. *)
Theorem Query_without_cache clk (m : Manager A) (a : A) key
    (queryFunc : W -> (T * option error) * W) opts (w : W) :
  manager_adapter m = Some a ->
  match Ticket (build_options m opts) with
  | Some t => Validate (Some t) (now_validate clk) = None
  | None => True
  end ->
  let q := Query zero clk (Some m) key queryFunc (opts ++ [WithNoCache]) w in
  q.1.2 = Some m /\
  q.2 = (queryFunc w).2 /\
  q.1.1 = match (queryFunc w).1.2 with
          | Some e => (zero, Some e)
          | None => ((queryFunc w).1.1, None)
          end.
Proof.
  intros Ha Htk q.
  set (options := build_options m (opts ++ [WithNoCache])).
  assert (Ticket options = Ticket (build_options m opts)) as Hticket
    by (unfold options; rewrite build_options_app; reflexivity).
  assert (opt_UseCache options = false) as Hoff
    by (unfold options; rewrite build_options_app; reflexivity).
  unfold q, Query. rewrite Ha. cbv zeta. fold options. rewrite Hticket.
  assert (match Ticket (build_options m opts) with
          | Some t => Validate (Some t) (now_validate clk)
          | None => None
          end = None) as ->.
  { destruct (Ticket (build_options m opts)); [exact Htk | reflexivity]. }
  unfold Query_lookup, Query_produce. rewrite Hoff.
  destruct m as [ad ttl mon]. simpl in *. subst ad.
  destruct (queryFunc w) as [[r [e|]] w']; simpl; auto.
Qed.
End QueryGuards.

Lemma Query_rejects_invalid_ticket_witness :
  let m := sample_manager ∅ in
  let t := {| UserID := "u"; Token := "abc"; IssuedAt := 0; ExpiresAt := 50 |} in
  Query (codec := decimal_codec) 0 sample_clock (Some m) "k"
    (counting_producer 7) [WithTTL 30; WithTicket (Some t)] 0%nat =
    ((0, Some ErrTicketExpired), Some m, 0%nat).
Proof.
  intros m t.
  destruct (Query_rejects_invalid_ticket (codec := decimal_codec) 0
              sample_clock m (NewMemoryCacheAdapter 60) "k"
              (counting_producer 7) [WithTTL 30] 0%nat t ErrTicketExpired)
    as [Hq _]; [reflexivity | reflexivity |].
  exact Hq.
Defined.

Lemma Query_without_cache_witness :
  let m := sample_manager
             {[ "k"%string := {| data := "1"; expireAt := 0 |} ]} in
  let q := Query (codec := decimal_codec) 0 sample_clock (Some m) "k"
             (counting_producer 7) [WithNoCache] 0%nat in
  q.1.2 = Some m /\ q.2 = 1%nat /\ q.1.1 = (7, None).
Proof.
  intros m q.
  apply (Query_without_cache (codec := decimal_codec) 0 sample_clock m
           (with_cache (NewMemoryCacheAdapter 60)
              {[ "k"%string := {| data := "1"; expireAt := 0 |} ]})
           "k" (counting_producer 7) [] 0%nat);
    [reflexivity | exact I].
Defined.

(** * Keys of different pages *)

Lemma string_app_assoc (a b c : string) : (a +:+ b) +:+ c = a +:+ (b +:+ c).
Proof.
  induction a as [|x a IH]; [reflexivity|].
  rewrite !string_app_cons. now f_equal.
Qed.

Lemma Join_app (l l' : list string) sep :
  l <> [] -> l' <> [] ->
  Join (l ++ l') sep = Join l sep +:+ sep +:+ Join l' sep.
Proof.
  intros Hl Hl'. induction l as [|e l IH]; [contradiction|].
  destruct l as [|e' l].
  - simpl. destruct l' as [|e'' l']; [contradiction | reflexivity].
  - change ((e :: e' :: l) ++ l') with (e :: e' :: (l ++ l')).
    rewrite !Join_cons_cons.
    change (e' :: l ++ l') with ((e' :: l) ++ l').
    rewrite IH by discriminate.
    rewrite !string_app_assoc. reflexivity.
Qed.

Lemma is_digit_pretty_N_char x : is_digit (pretty_N_char x) = true.
Proof. unfold pretty_N_char. repeat case_match; reflexivity. Qed.

Lemma all_digits_pretty_N_go x s :
  all_digits s = true -> all_digits (pretty_N_go x s) = true.
Proof.
  revert s. induction (N.lt_wf_0 x) as [x _ IH]; intros s Hs.
  assert (x = 0 \/ 0 < x)%N as [->|Hx] by lia.
  - now rewrite pretty_N_go_0.
  - rewrite pretty_N_go_step by done. apply IH.
    + now apply N.div_lt.
    + simpl. now rewrite is_digit_pretty_N_char.
Qed.

Lemma all_digits_Sprintf_d n : 0 <= n -> all_digits (Sprintf_d n) = true.
Proof.
  intros Hn. unfold Sprintf_d, pretty, pretty_Z.
  destruct n as [|p|p]; [reflexivity | | lia].
  unfold pretty, pretty_positive, pretty, pretty_N.
  case_decide; [reflexivity|]. now apply all_digits_pretty_N_go.
Qed.

(** Two strings of digits followed by a colon: the texts agree only if the
    digits and what follows the colon agree. *)
Lemma digits_before_colon (a b x y : string) :
  all_digits a = true -> all_digits b = true ->
  a +:+ ":" +:+ x = b +:+ ":" +:+ y -> a = b /\ x = y.
Proof.
  revert b. induction a as [|c a IH]; intros [|d b] Ha Hb E.
  - rewrite !string_app_nil in E. injection E as E. auto.
  - rewrite string_app_nil, string_app_cons in E. injection E as E1 E2.
    subst d. simpl in Hb. discriminate Hb.
  - rewrite string_app_nil, string_app_cons in E. injection E as E1 E2.
    subst c. simpl in Ha. discriminate Ha.
  - rewrite !string_app_cons in E. injection E as E1 E2. subst d.
    simpl in Ha, Hb. apply andb_true_iff in Ha as [_ Ha].
    apply andb_true_iff in Hb as [_ Hb].
    destruct (IH b Ha Hb E2) as [-> ->]. auto.
Qed.

Lemma NormalizePaginationParams_Page params :
  1 <= Page (NormalizePaginationParams params).
Proof.
  unfold NormalizePaginationParams, DefaultPage.
  destruct params as [[page size use]|]; simpl; [|lia].
  destruct (Z.leb_spec page 0); lia.
Qed.

Section CacheKeyPages.
Context {V : Type} {codec : JSON V}.

(** The key is a front part that does not depend on the parameters, then
    the page and the size. *)
Lemma GenerateCacheKey_split order resource (filters : gmap string V) :
  exists front,
    forall params,
      GenerateCacheKey order resource filters params =
        front +:+ ":" +:+
          Join ["page";
                Sprintf_d (Page (NormalizePaginationParams params));
                "size";
                Sprintf_d (PageSize (NormalizePaginationParams params))]
               ":".
Proof.
  exists (Join (if (0 <? size filters)%nat
                then foldl (fun parts k => parts ++ [k; filter_value filters k])
                       [resource]
                       (sort_Strings
                          (foldl (fun keys k => keys ++ [k]) [] order))
                else [resource]) ":").
  intros params. unfold GenerateCacheKey.
  apply Join_app; [|discriminate].
  destruct (0 <? size filters)%nat; [|discriminate].
  rewrite foldl_append_pairs. discriminate.
Qed.

(** X20: for one resource and one set of filters, two sets of parameters
    give the same key only if they normalise to the same page and the same
    page size: different pages never share a key. *)
Theorem GenerateCacheKey_separates_pages order resource
    (filters : gmap string V) params1 params2 :
  GenerateCacheKey order resource filters params1 =
    GenerateCacheKey order resource filters params2 ->
  Page (NormalizePaginationParams params1) =
    Page (NormalizePaginationParams params2) /\
  PageSize (NormalizePaginationParams params1) =
    PageSize (NormalizePaginationParams params2).
Proof.
  destruct (GenerateCacheKey_split order resource filters) as [front Hfront].
  rewrite (Hfront params1), (Hfront params2).
  intros E. apply (inj (String.app front)) in E.
  apply (inj (String.app ":")) in E.
  rewrite !Join_cons_cons in E.
  apply (inj (String.app "page")) in E.
  apply (inj (String.app ":")) in E.
  pose proof (NormalizePaginationParams_Page params1).
  pose proof (NormalizePaginationParams_Page params2).
  apply digits_before_colon in E as [E1 E2];
    [| apply all_digits_Sprintf_d; lia | apply all_digits_Sprintf_d; lia].
  apply (inj (String.app "size")) in E2.
  apply (inj (String.app ":")) in E2. simpl in E2.
  split; apply (inj pretty); assumption.
Qed.
End CacheKeyPages.

Lemma GenerateCacheKey_separates_pages_witness :
  let p1 := Some {| Page := 0; PageSize := 500; UseCache := true |} in
  let p2 := Some {| Page := 1; PageSize := 200; UseCache := false |} in
  GenerateCacheKey (codec := quote_codec) [] "users" ∅ p1 =
    GenerateCacheKey (codec := quote_codec) [] "users" ∅ p2 /\
  Page (NormalizePaginationParams p1) = Page (NormalizePaginationParams p2) /\
  PageSize (NormalizePaginationParams p1) =
    PageSize (NormalizePaginationParams p2).
Proof.
  intros p1 p2. split; [reflexivity|].
  apply (GenerateCacheKey_separates_pages (codec := quote_codec)
           [] "users" ∅ p1 p2).
  reflexivity.
Defined.

(** * Paginated queries *)

Lemma NormalizePaginationParams_fixed params :
  NormalizePaginationParams (Some (NormalizePaginationParams params)) =
    NormalizePaginationParams params.
Proof.
  pose proof (NormalizePaginationParams_Page params) as Hp.
  pose proof (NormalizePaginationParams_PageSize params) as Hs.
  destruct (NormalizePaginationParams params) as [page size use].
  unfold NormalizePaginationParams, MaxPageSize in *. simpl in *.
  destruct (Z.leb_spec page 0); [lia|].
  destruct (Z.leb_spec size 0); [lia|].
  destruct (Z.ltb_spec 200 size); [lia|]. reflexivity.
Qed.

Section PaginatedOutcome.
Variable sha256_Sum256 : bytes -> bytes.
Context {A : Type} {backend : Adapter A}.
Context {T : Type} {list_codec : JSON (list T)}.
Context {item_codec : JSON (paginationCacheItem T)}.
Context {V : Type} {filter_codec : JSON V}.
Context {W : Type}.

(** X22: what a paginated query can do.  It panics exactly when caching is
    on and the manager has no adapter.  Otherwise it returns either an
    envelope with a nil error, carrying the derived key and the normalised
    page and page size, or no envelope and the producer's error.  It never
    changes the monitor, and with caching off it leaves the manager as it
    was and runs the producer. *)
Theorem QueryWithPagination_outcome now_get now_set order (m : Manager A)
    resource (filters : gmap string V) params
    (queryFunc : W -> (list T * Z * option error) * W) w :
  let np := NormalizePaginationParams params in
  let key := GenerateCacheKey order resource filters (Some np) in
  match QueryWithPagination sha256_Sum256 now_get now_set order (Some m)
          resource filters params queryFunc w with
  | Panics => manager_adapter m = None /\ UseCache np = true
  | Returns (r, m', w') =>
      m' ≫= manager_monitor = manager_monitor m /\
      (if UseCache np then is_Some (manager_adapter m)
       else m' = Some m /\ w' = (queryFunc w).2) /\
      match r with
      | (Some resp, None) =>
          resp_CacheKey resp = key /\
          resp_Page resp = Page np /\
          resp_PageSize resp = PageSize np
      | (None, Some e) =>
          (queryFunc w).1.2 = Some e /\ w' = (queryFunc w).2
      | _ => False
      end
  end.
Proof.
  intros np key. unfold QueryWithPagination. fold np. fold key.
  pose proof (NormalizePaginationParams_fixed params) as Hfix. fold np in Hfix.
  assert (forall rows total flag,
    resp_Page (BuildPaginationResponse sha256_Sum256 rows total (Some np)
                 key flag) = Page np /\
    resp_PageSize (BuildPaginationResponse sha256_Sum256 rows total (Some np)
                     key flag) = PageSize np) as Hbuild.
  { intros rows total flag. unfold BuildPaginationResponse.
    cbn [resp_Page resp_PageSize]. rewrite Hfix. auto. }
  destruct (UseCache np) eqn:Hon.
  - destruct (manager_adapter m) as [a|] eqn:Ha; [|auto].
    destruct (adapter_Get a now_get key) as [[d e] a1].
    assert (forall out,
      out = paginate_produce sha256_Sum256 m (Some a1) now_set np key
              queryFunc w ->
      match out with
      | (r, m', w') =>
          m' ≫= manager_monitor = manager_monitor m /\
          is_Some (Some a) /\
          match r with
          | (Some resp, None) =>
              resp_CacheKey resp = key /\ resp_Page resp = Page np /\
              resp_PageSize resp = PageSize np
          | (None, Some e0) =>
              (queryFunc w).1.2 = Some e0 /\ w' = (queryFunc w).2
          | _ => False
          end
      end) as Hprod.
    { intros out ->. unfold paginate_produce.
      destruct (queryFunc w) as [[[rows total] [e0|]] w'];
        cbn -[BuildPaginationResponse]; repeat split; eauto;
        apply Hbuild. }
    destruct e as [e|], d as [d|]; try (apply Hprod; reflexivity).
    destruct (json_Unmarshal d) as [item|bad]; [|apply Hprod; reflexivity].
    cbn -[BuildPaginationResponse]. repeat split; eauto; apply Hbuild.
  - unfold paginate_produce.
    destruct (queryFunc w) as [[[rows total] [e0|]] w'];
      cbn -[BuildPaginationResponse]; repeat split; eauto; apply Hbuild.
Qed.
End PaginatedOutcome.

Section PaginatedRoundTrip.
Variable sha256_Sum256 : bytes -> bytes.
Context {T : Type} {list_codec : JSON (list T)}.
Context {item_codec : JSON (paginationCacheItem T)}.
Context {V : Type} {filter_codec : JSON V}.
Context {W : Type}.

(** X21: over the in-process backend with caching on, a paginated query
    that misses and whose producer succeeds returns the envelope built from
    the producer's rows and stores it; a second query for the same resource,
    filters and parameters, made before the entry expires, returns the same
    envelope marked as served from the cache, without running the producer,
    whatever the order in which the filters are ranged over.  The monitor
    is not involved.  The codec has to decode the stored item. *)
Theorem QueryWithPagination_second_call_from_cache (a : MemoryCacheAdapter)
    mdefault mon now_get1 now_set1 now_get2 now_set2 order1 order2 resource
    (filters : gmap string V) params
    (queryFunc : W -> (list T * Z * option error) * W) w w1 rows total
    payload :
  let m := {| manager_adapter := Some a; manager_defaultTTL := mdefault;
              manager_monitor := mon |} in
  let np := NormalizePaginationParams params in
  let key := GenerateCacheKey order1 resource filters (Some np) in
  let item := {| item_Data := rows; item_Total := total;
                 item_DataHash := GenerateDataHash sha256_Sum256 rows |} in
  let eff := if mdefault =? 0 then defaultTTL a else mdefault in
  range_order filters order1 ->
  range_order filters order2 ->
  UseCache np = true ->
  (MemGet a now_get1 key).1.1 = None ->
  queryFunc w = ((rows, total, None), w1) ->
  json_Marshal item = inl payload ->
  json_Unmarshal payload = inl item ->
  eff <= 0 \/ now_get2 <= now_set1 + eff ->
  let q1 :=
    QueryWithPagination sha256_Sum256 now_get1 now_set1 order1 (Some m)
      resource filters params queryFunc w in
  exists m1,
    q1 = Returns
           ((Some (BuildPaginationResponse sha256_Sum256 rows total (Some np)
                     key false), None), Some m1, w1) /\
    manager_monitor m1 = mon /\
    QueryWithPagination sha256_Sum256 now_get2 now_set2 order2 (Some m1)
      resource filters params queryFunc w1 =
    Returns
      ((Some (BuildPaginationResponse sha256_Sum256 rows total (Some np)
                key true), None), Some m1, w1).
Proof.
  intros m np key item eff Ho1 Ho2 Hon Hmiss Hprod Hp Hu Hlive q1.
  pose proof (MemGet_no_error a now_get1 key) as Hnoerr.
  pose proof (MemGet_defaultTTL a now_get1 key) as Hdef.
  destruct (MemGet a now_get1 key) as [[d e] a1] eqn:Hget.
  simpl in Hmiss, Hnoerr, Hdef. subst d e.
  pose proof (MemSet_stores a1 now_set1 key item mdefault payload Hp) as Hset.
  cbv zeta in Hset. rewrite Hdef in Hset. fold eff in Hset.
  set (entry := {| data := payload;
                   expireAt := if 0 <? eff then Add now_set1 eff
                               else zeroTime |}) in *.
  set (a2 := with_cache a1 (<[key := entry]> (cache a1))) in *.
  exists (with_adapter m a2).
  assert (GenerateCacheKey order2 resource filters (Some np) = key) as Hkey.
  { unfold key. rewrite (GenerateCacheKey_sorted _ _ _ _ Ho1).
    rewrite (GenerateCacheKey_sorted _ _ _ _ Ho2).
    rewrite (sort_Strings_order order2 order1); [reflexivity|].
    unfold range_order in *. now rewrite Ho1, Ho2. }
  split; [|split; [reflexivity|]].
  - unfold q1, QueryWithPagination. fold np. fold key. rewrite Hon.
    simpl manager_adapter. cbv iota.
    change (adapter_Get a now_get1 key) with (MemGet a now_get1 key).
    rewrite Hget. cbv iota beta zeta.
    unfold paginate_produce. rewrite Hprod. cbv iota beta zeta.
    simpl manager_defaultTTL.
    change (resp_DataHash (BuildPaginationResponse sha256_Sum256 rows total
                             (Some np) key false))
      with (GenerateDataHash sha256_Sum256 rows).
    fold item.
    change (adapter_Set a1 now_set1 key item mdefault)
      with (MemSet a1 now_set1 key item mdefault).
    rewrite Hset. reflexivity.
  - unfold QueryWithPagination. fold np. rewrite Hkey, Hon.
    simpl manager_adapter. cbv iota.
    change (adapter_Get a2 now_get2 key) with (MemGet a2 now_get2 key).
    rewrite (MemGet_live a2 now_get2 key entry);
      [| simpl; apply lookup_insert_eq | apply stored_entry_live; exact Hlive].
    cbv iota beta zeta. simpl data. rewrite Hu. reflexivity.
Qed.
End PaginatedRoundTrip.

Lemma QueryWithPagination_second_call_from_cache_witness :
  let rows_codec : JSON (list Z) :=
    {| json_Marshal := fun _ => inl ""%string;
       json_Unmarshal := fun _ => inl [] |} in
  let item_codec : JSON (paginationCacheItem Z) :=
    {| json_Marshal := fun it => inl (pretty (item_Total it));
       json_Unmarshal := fun b =>
         match parse_decimal b with
         | inl n => inl {| item_Data := []; item_Total := n;
                           item_DataHash := "" |}
         | inr e => inr e
         end |} in
  let producer : nat -> (list Z * Z * option error) * nat :=
    fun calls => (([], 0, None), S calls) in
  let q1 :=
    QueryWithPagination (list_codec := rows_codec) (item_codec := item_codec)
      (filter_codec := quote_codec) (fun b => b) 101 104 [] (Some (sample_manager ∅))
      "items" ∅ None producer 0%nat in
  exists m1 resp,
    q1 = Returns ((Some resp, None), Some m1, 1%nat) /\
    resp_FromCache resp = false /\
    exists resp',
      QueryWithPagination (list_codec := rows_codec)
        (item_codec := item_codec) (filter_codec := quote_codec)
        (fun b => b) 151 154 [] (Some m1) "items" ∅ None producer 1%nat =
        Returns ((Some resp', None), Some m1, 1%nat) /\
      resp_FromCache resp' = true /\
      resp_DataHash resp' = resp_DataHash resp.
Proof.
  intros rows_codec item_codec producer q1.
  destruct (QueryWithPagination_second_call_from_cache
              (list_codec := rows_codec) (item_codec := item_codec)
              (filter_codec := quote_codec) (fun b => b)
              (NewMemoryCacheAdapter 60) 60 (Some (NewMonitor 0))
              101 104 151 154 [] [] "items" ∅ None producer 0%nat 1%nat
              [] 0 "0") as (m1 & H1 & _ & H2);
    [vm_compute; reflexivity | vm_compute; reflexivity | reflexivity
     | reflexivity | reflexivity | reflexivity | reflexivity
     | right; simpl; lia |].
  exists m1. eexists. split; [exact H1|]. split; [reflexivity|].
  eexists. split; [exact H2|]. split; reflexivity.
Defined.

(** * Prefetching *)

Lemma foldl_insert_lookup {X} (f : Z -> string) (g : Z -> X) pages :
  forall (c : gmap string X),
  NoDup pages ->
  (forall p p', p ∈ pages -> p' ∈ pages -> f p = f p' -> p = p') ->
  (forall p, p ∈ pages ->
             foldl (fun c p => <[f p := g p]> c) c pages !! f p = Some (g p)) /\
  (forall k, (forall p, p ∈ pages -> k <> f p) ->
             foldl (fun c p => <[f p := g p]> c) c pages !! k = c !! k).
Proof.
  induction pages as [|a pages IH]; intros c Hnd Hinj.
  - split; [intros p Hp; inversion Hp | reflexivity].
  - apply NoDup_cons in Hnd as [Ha Hnd]. simpl.
    destruct (IH (<[f a := g a]> c) Hnd) as [IH1 IH2].
    { intros p p' Hp Hp'. apply Hinj; apply elem_of_cons; auto. }
    split.
    + intros p Hp. apply elem_of_cons in Hp as [->|Hp]; [|now apply IH1].
      rewrite IH2; [apply lookup_insert_eq|].
      intros p Hp E. apply Ha.
      rewrite (Hinj a p); auto; apply elem_of_cons; auto.
    + intros k Hk. rewrite IH2.
      * apply lookup_insert_ne. intros E. apply (Hk a); [|auto].
        apply elem_of_cons; auto.
      * intros p Hp. apply Hk. apply elem_of_cons; auto.
Qed.

Lemma page_items_slice {T} (items : list T) ps p :
  0 < ps -> 1 <= p ->
  (p - 1) * ps <= Z.of_nat (length items) ->
  Z.of_nat (length items) + ps < 2 ^ 63 ->
  page_items items ps p =
    take (Z.to_nat ps) (drop (Z.to_nat ((p - 1) * ps)) items).
Proof.
  intros Hps Hp Hoff Hb. unfold page_items, slice.
  assert (0 <= (p - 1) * ps) by nia.
  assert (p - 1 <= (p - 1) * ps) by nia.
  rewrite (wrap64_id (p - 1)) by (unfold int64_range; lia).
  rewrite (wrap64_id ((p - 1) * ps)) by (unfold int64_range; lia).
  rewrite (wrap64_id ((p - 1) * ps + ps)) by (unfold int64_range; lia).
  destruct (Z.ltb_spec (Z.of_nat (length items)) ((p - 1) * ps + ps)).
  - rewrite !take_ge; [reflexivity | |]; rewrite length_drop; lia.
  - f_equal. lia.
Qed.

Section PrefetchProperties.
Variable sha256_Sum256 : bytes -> bytes.
Context {T : Type} {list_codec : JSON (list T)}.
Context {item_codec : JSON (paginationCacheItem T)}.
Context {V : Type} {filter_codec : JSON V}.
Variable enc : paginationCacheItem T -> bytes.
Hypothesis Marshal_item : forall it, json_Marshal it = inl (enc it).

Lemma page_key_inj resource ps p p' :
  1 <= p -> 1 <= p' ->
  page_key (filter_codec := filter_codec) resource ps p =
    page_key (filter_codec := filter_codec) resource ps p' ->
  p = p'.
Proof.
  intros Hp Hp'. unfold page_key.
  destruct (GenerateCacheKey_split [] resource (∅ : gmap string V))
    as [front Hfront].
  rewrite !Hfront. intros E.
  apply (inj (String.app front)) in E.
  apply (inj (String.app ":")) in E.
  rewrite !Join_cons_cons in E.
  apply (inj (String.app "page")) in E.
  apply (inj (String.app ":")) in E.
  assert (forall q, 1 <= q ->
    Page (NormalizePaginationParams
            (Some {| Page := q; PageSize := ps; UseCache := true |})) = q)
    as Hpage.
  { intros q Hq. simpl. destruct (Z.leb_spec q 0); [lia | reflexivity]. }
  rewrite (Hpage p Hp), (Hpage p' Hp') in E.
  apply digits_before_colon in E as [E _];
    [| apply all_digits_Sprintf_d; lia | apply all_digits_Sprintf_d; lia].
  apply (inj pretty). exact E.
Qed.

(** The entry [Prefetch] stores for a page. *)
Let stored (a : MemoryCacheAdapter) mdefault (now_at : Z -> Time)
    (items : list T) ps ttl (p : Z) : memoryEntry :=
  let asked := if ttl =? 0 then mdefault else ttl in
  let eff := if asked =? 0 then defaultTTL a else asked in
  {| data := enc {| item_Data := page_items items ps p;
                    item_Total := Z.of_nat (length items);
                    item_DataHash :=
                      GenerateDataHash sha256_Sum256 (page_items items ps p) |};
     expireAt := if 0 <? eff then Add (now_at p) eff else zeroTime |}.

Lemma Prefetch_loop (a : MemoryCacheAdapter) mdefault mon now_at resource
    items ps ttl pages : forall c,
  foldl (Prefetch_page (filter_codec := filter_codec) sha256_Sum256 now_at
           resource items ps ttl)
        {| manager_adapter := Some (with_cache a c);
           manager_defaultTTL := mdefault; manager_monitor := mon |} pages =
    {| manager_adapter :=
         Some (with_cache a
                 (foldl (fun c p =>
                           <[page_key (filter_codec := filter_codec)
                               resource ps p :=
                               stored a mdefault now_at items ps ttl p]> c)
                        c pages));
       manager_defaultTTL := mdefault; manager_monitor := mon |}.
Proof.
  induction pages as [|p pages IH]; intros c; [reflexivity|].
  simpl foldl. rewrite <- IH. f_equal.
  unfold Prefetch_page, ManagerSet. simpl manager_adapter. cbv iota.
  simpl manager_defaultTTL.
  match goal with
  | |- context [adapter_Set ?a0 ?n ?k ?v ?t] =>
      change (adapter_Set a0 n k v t) with (MemSet a0 n k v t);
      rewrite (MemSet_stores a0 n k v t _ (Marshal_item v))
  end.
  reflexivity.
Qed.

Lemma Prefetch_pages_value strategy (items : list T) ps :
  0 < ps -> Z.of_nat (length items) + ps < 2 ^ 63 ->
  Prefetch_pages strategy items ps =
    Z.min ((Z.of_nat (length items) + ps - 1) / ps) (batchSize strategy).
Proof.
  intros Hps Hb. unfold Prefetch_pages.
  rewrite (wrap64_id (_ + ps)) by (unfold int64_range; lia).
  rewrite (wrap64_id (_ + ps - 1)) by (unfold int64_range; lia).
  rewrite Z.quot_div_nonneg by lia.
  destruct (Z.ltb_spec (batchSize strategy)
              ((Z.of_nat (length items) + ps - 1) / ps)); lia.
Qed.

(** The state of the in-process backend after [Prefetch]. *)
Lemma Prefetch_result (a : MemoryCacheAdapter) mdefault mon now_at
    strategy resource (items : list T) pageSize ttl :
  enabled strategy = true ->
  let ps := if pageSize <=? 0 then DefaultPageSize else pageSize in
  let len := Z.of_nat (length items) in
  len + ps < 2 ^ 63 ->
  let m := {| manager_adapter := Some a; manager_defaultTTL := mdefault;
              manager_monitor := mon |} in
  let pages := Z.min ((len + ps - 1) / ps) (batchSize strategy) in
  0 < ps /\
  exists a',
    Prefetch (filter_codec := filter_codec) sha256_Sum256 now_at
      (Some strategy) (Some m) resource items pageSize ttl =
      (None, Some (with_adapter m a')) /\
    defaultTTL a' = defaultTTL a /\
    (forall p, 1 <= p <= pages ->
       cache a' !! page_key (filter_codec := filter_codec) resource ps p =
         Some (stored a mdefault now_at items ps ttl p)) /\
    (forall k,
       (forall p, 1 <= p <= pages ->
                  k <> page_key (filter_codec := filter_codec) resource ps p) ->
       cache a' !! k = cache a !! k).
Proof.
  intros Hen ps len Hb m pages.
  assert (0 < ps) as Hps.
  { unfold ps, DefaultPageSize. destruct (Z.leb_spec pageSize 0); lia. }
  split; [exact Hps|].
  assert (Prefetch (filter_codec := filter_codec) sha256_Sum256 now_at
            (Some strategy) (Some m) resource items pageSize ttl =
          (None,
           Some (foldl (Prefetch_page (filter_codec := filter_codec)
                          sha256_Sum256 now_at resource items ps ttl)
                   m (seqZ 1 pages)))) as Hr.
  { unfold Prefetch. rewrite Hen. fold ps.
    rewrite (Prefetch_pages_value strategy items ps Hps Hb). reflexivity. }
  assert (m = {| manager_adapter := Some (with_cache a (cache a));
                 manager_defaultTTL := mdefault; manager_monitor := mon |})
    as Hm by (unfold m; destruct a; reflexivity).
  rewrite Hm, Prefetch_loop in Hr. rewrite <- Hm in Hr.
  destruct (foldl_insert_lookup
              (page_key (filter_codec := filter_codec) resource ps)
              (stored a mdefault now_at items ps ttl)
              (seqZ 1 pages) (cache a)) as [Hin Hout].
  { apply NoDup_seqZ. }
  { intros p p' Hp Hp'. apply elem_of_seqZ in Hp, Hp'.
    apply page_key_inj; lia. }
  eexists. split; [rewrite Hr; reflexivity|].
  split; [reflexivity|]. split.
  - intros p Hp. simpl. apply Hin. apply elem_of_seqZ. lia.
  - intros k Hk. simpl. apply Hout.
    intros p Hp. apply Hk. apply elem_of_seqZ in Hp. lia.
Qed.

(** X23: over the in-process backend, an enabled [Prefetch] of items whose
    pages encode returns nil and stores, for every page from 1 to the
    smaller of the batch size and the number of pages (the item count
    divided by the page size, rounded up), the consecutive slice of at most
    [pageSize] items of that page, with the item count as total and the
    hash of the slice, under the key of that page with no filters; the
    entries of all other keys are untouched.  A page size that is not
    positive counts as the default.  The expiry follows the TTL in force:
    the argument, else the manager's default, else the backend's. *)
Theorem Prefetch_stores_pages (a : MemoryCacheAdapter) mdefault mon now_at
    strategy resource (items : list T) pageSize ttl :
  enabled strategy = true ->
  let ps := if pageSize <=? 0 then DefaultPageSize else pageSize in
  let len := Z.of_nat (length items) in
  len + ps < 2 ^ 63 ->
  let m := {| manager_adapter := Some a; manager_defaultTTL := mdefault;
              manager_monitor := mon |} in
  let asked := if ttl =? 0 then mdefault else ttl in
  let eff := if asked =? 0 then defaultTTL a else asked in
  let pages := Z.min ((len + ps - 1) / ps) (batchSize strategy) in
  let r :=
    Prefetch (filter_codec := filter_codec) sha256_Sum256 now_at
      (Some strategy) (Some m) resource items pageSize ttl in
  r.1 = None /\
  exists a',
    r.2 = Some (with_adapter m a') /\
    defaultTTL a' = defaultTTL a /\
    (forall p, 1 <= p <= pages ->
       let rows := take (Z.to_nat ps) (drop (Z.to_nat ((p - 1) * ps)) items) in
       cache a' !! page_key (filter_codec := filter_codec) resource ps p =
         Some {| data :=
                   enc {| item_Data := rows; item_Total := len;
                          item_DataHash :=
                            GenerateDataHash sha256_Sum256 rows |};
                 expireAt :=
                   if 0 <? eff then Add (now_at p) eff else zeroTime |}) /\
    (forall k,
       (forall p, 1 <= p <= pages ->
                  k <> page_key (filter_codec := filter_codec) resource ps p) ->
       cache a' !! k = cache a !! k).
Proof.
  intros Hen ps len Hb m asked eff pages r.
  pose proof (Prefetch_result a mdefault mon now_at strategy resource items
                pageSize ttl Hen Hb) as Hres.
  cbv zeta in Hres. fold ps len m pages in Hres.
  destruct Hres as (Hps & a' & Hr & Httl & Hin & Hout).
  unfold r. rewrite Hr. split; [reflexivity|].
  exists a'. split; [reflexivity|]. split; [exact Httl|].
  split; [|exact Hout].
  intros p Hp. cbv zeta. rewrite (Hin p Hp). unfold stored.
  assert (page_items items ps p =
            take (Z.to_nat ps) (drop (Z.to_nat ((p - 1) * ps)) items))
    as ->; [|reflexivity].
  apply page_items_slice; try lia.
  assert (p <= (len + ps - 1) / ps) as Hle by lia.
  pose proof (Z.mul_div_le (len + ps - 1) ps Hps). fold len. nia.
Qed.

Lemma GenerateCacheKey_normalised order resource (filters : gmap string V)
    params :
  GenerateCacheKey order resource filters
    (Some (NormalizePaginationParams params)) =
  GenerateCacheKey order resource filters params.
Proof.
  unfold GenerateCacheKey. now rewrite NormalizePaginationParams_fixed.
Qed.

Context {W : Type}.

(** X24: a page stored by [Prefetch] is what [QueryWithPagination] serves
    for the same resource, page and page size with no filters, while the
    entry has not expired: the envelope holds the slice and the item count,
    is marked as served from the cache, and the producer is not run.  The
    codec has to decode the stored item. *)
Theorem Prefetch_then_QueryWithPagination (a : MemoryCacheAdapter) mdefault
    mon now_at strategy resource (items : list T) pageSize ttl p now_get
    now_set (queryFunc : W -> (list T * Z * option error) * W) w :
  enabled strategy = true ->
  let ps := if pageSize <=? 0 then DefaultPageSize else pageSize in
  let len := Z.of_nat (length items) in
  len + ps < 2 ^ 63 ->
  let m := {| manager_adapter := Some a; manager_defaultTTL := mdefault;
              manager_monitor := mon |} in
  let asked := if ttl =? 0 then mdefault else ttl in
  let eff := if asked =? 0 then defaultTTL a else asked in
  let rows := take (Z.to_nat ps) (drop (Z.to_nat ((p - 1) * ps)) items) in
  let item := {| item_Data := rows; item_Total := len;
                 item_DataHash := GenerateDataHash sha256_Sum256 rows |} in
  let params := Some {| Page := p; PageSize := ps; UseCache := true |} in
  1 <= p <= Z.min ((len + ps - 1) / ps) (batchSize strategy) ->
  json_Unmarshal (enc item) = inl item ->
  eff <= 0 \/ now_get <= now_at p + eff ->
  exists m',
    (Prefetch (filter_codec := filter_codec) sha256_Sum256 now_at
       (Some strategy) (Some m) resource items pageSize ttl).2 = Some m' /\
    QueryWithPagination (filter_codec := filter_codec) sha256_Sum256
      now_get now_set [] (Some m') resource ∅ params queryFunc w =
      Returns
        ((Some (BuildPaginationResponse sha256_Sum256 rows len params
                  (page_key (filter_codec := filter_codec) resource ps p)
                  true), None),
         Some m', w).
Proof.
  intros Hen ps len Hb m asked eff rows item params Hp Hu Hlive.
  pose proof (Prefetch_result a mdefault mon now_at strategy resource items
                pageSize ttl Hen Hb) as Hres.
  cbv zeta in Hres. fold ps len m in Hres.
  destruct Hres as (Hps & a' & Hr & Httl & Hin & _).
  specialize (Hin p Hp).
  assert (page_items items ps p = rows) as Hrows.
  { apply page_items_slice; try lia.
    assert (p <= (len + ps - 1) / ps) as Hle by lia.
    pose proof (Z.mul_div_le (len + ps - 1) ps Hps). fold len. nia. }
  unfold stored in Hin. rewrite Hrows in Hin. fold len item asked eff in Hin.
  exists (with_adapter m a'). rewrite Hr. split; [reflexivity|].
  unfold QueryWithPagination.
  rewrite GenerateCacheKey_normalised.
  change (GenerateCacheKey [] resource ∅ params)
    with (page_key (filter_codec := filter_codec) resource ps p).
  assert (UseCache (NormalizePaginationParams params) = true) as ->
    by reflexivity.
  simpl manager_adapter. cbv iota.
  change (adapter_Get a' now_get
            (page_key (filter_codec := filter_codec) resource ps p))
    with (MemGet a' now_get
            (page_key (filter_codec := filter_codec) resource ps p)).
  rewrite (MemGet_live a' now_get _ _ Hin)
    by (apply stored_entry_live; exact Hlive).
  cbv iota beta zeta. simpl data. rewrite Hu.
  cbv iota beta zeta. unfold with_DataHash, BuildPaginationResponse.
  cbn [resp_Data resp_Total resp_Page resp_PageSize resp_TotalPages
       resp_FromCache resp_CacheKey resp_DataHash item_Data item_Total
       item_DataHash].
  rewrite NormalizePaginationParams_fixed. reflexivity.
Qed.
End PrefetchProperties.

Lemma Prefetch_stores_pages_witness :
  let rows_codec : JSON (list Z) :=
    {| json_Marshal := fun l => inl (pretty (length l));
       json_Unmarshal := fun _ => inl [] |} in
  let enc : paginationCacheItem Z -> bytes :=
    fun it => pretty (length (item_Data it)) in
  let item_codec : JSON (paginationCacheItem Z) :=
    {| json_Marshal := fun it => inl (enc it);
       json_Unmarshal := fun _ => inr "unused"%string |} in
  let r :=
    Prefetch (list_codec := rows_codec) (item_codec := item_codec)
      (filter_codec := quote_codec) (fun b => b) (fun page => 100 + page)
      (Some (NewPrefetchCacheStrategy true 5))
      (Some {| manager_adapter := Some (NewMemoryCacheAdapter 60);
               manager_defaultTTL := 60;
               manager_monitor := Some (NewMonitor 0) |})
      "items" [7; 7; 7] 2 0 in
  r.1 = None /\
  exists a',
    r.2 ≫= manager_adapter = Some a' /\
    cache a' !! "items:page:1:size:2"%string =
      Some {| data := "2"; expireAt := 161 |} /\
    cache a' !! "items:page:2:size:2"%string =
      Some {| data := "1"; expireAt := 162 |} /\
    cache a' !! "items:page:3:size:2"%string = None.
Proof.
  intros rows_codec enc item_codec r.
  destruct (Prefetch_stores_pages (list_codec := rows_codec)
              (item_codec := item_codec) (filter_codec := quote_codec)
              (fun b => b) enc (fun it => eq_refl)
              (NewMemoryCacheAdapter 60) 60 (Some (NewMonitor 0))
              (fun page => 100 + page) (NewPrefetchCacheStrategy true 5)
              "items" [7; 7; 7] 2 0)
    as (Herr & a' & Hr & _ & Hin & Hout);
    [reflexivity | vm_compute; reflexivity |].
  split; [exact Herr|]. exists a'.
  split; [unfold r; rewrite Hr; reflexivity|].
  split; [|split].
  - apply (Hin 1). vm_compute. split; discriminate.
  - apply (Hin 2). vm_compute. split; discriminate.
  - rewrite (Hout "items:page:3:size:2"%string); [reflexivity|].
    intros p Hp.
    assert (p = 1 \/ p = 2) as [-> | ->]
      by (change (1 <= p <= 2) in Hp; lia);
      discriminate.
Defined.

Lemma Prefetch_then_QueryWithPagination_witness :
  let rows_codec : JSON (list Z) :=
    {| json_Marshal := fun l => inl (pretty (length l));
       json_Unmarshal := fun _ => inl [] |} in
  let enc : paginationCacheItem Z -> bytes :=
    fun it => pretty (length (item_Data it)) in
  let item_codec : JSON (paginationCacheItem Z) :=
    {| json_Marshal := fun it => inl (enc it);
       json_Unmarshal := fun b =>
         match parse_decimal b with
         | inl n =>
             let rows := replicate (Z.to_nat n) 7 in
             inl {| item_Data := rows; item_Total := 3;
                    item_DataHash :=
                      GenerateDataHash (codec := rows_codec) (fun b => b)
                        rows |}
         | inr e => inr e
         end |} in
  let producer : nat -> (list Z * Z * option error) * nat :=
    fun calls => (([], 0, None), S calls) in
  let r :=
    Prefetch (list_codec := rows_codec) (item_codec := item_codec)
      (filter_codec := quote_codec) (fun b => b) (fun page => 100 + page)
      (Some (NewPrefetchCacheStrategy true 5))
      (Some {| manager_adapter := Some (NewMemoryCacheAdapter 60);
               manager_defaultTTL := 60;
               manager_monitor := Some (NewMonitor 0) |})
      "items" [7; 7; 7] 2 0 in
  exists m' resp,
    r.2 = Some m' /\
    QueryWithPagination (list_codec := rows_codec) (item_codec := item_codec)
      (filter_codec := quote_codec) (fun b => b) 150 151 [] (Some m')
      "items" ∅ (Some {| Page := 2; PageSize := 2; UseCache := true |})
      producer 0%nat = Returns ((Some resp, None), Some m', 0%nat) /\
    resp_Data resp = [7] /\ resp_Total resp = 3 /\
    resp_TotalPages resp = 2 /\ resp_FromCache resp = true.
Proof.
  intros rows_codec enc item_codec producer r.
  destruct (Prefetch_then_QueryWithPagination (list_codec := rows_codec)
              (item_codec := item_codec) (filter_codec := quote_codec)
              (fun b => b) enc (fun it => eq_refl)
              (NewMemoryCacheAdapter 60) 60 (Some (NewMonitor 0))
              (fun page => 100 + page) (NewPrefetchCacheStrategy true 5)
              "items" [7; 7; 7] 2 0 2 150 151 producer 0%nat)
    as (m' & Hr & Hq);
    [reflexivity | vm_compute; reflexivity | vm_compute; split; discriminate
     | reflexivity | right; vm_compute; discriminate |].
  exists m'. eexists. split; [exact Hr|]. split; [exact Hq|].
  repeat split; reflexivity.
Defined.
